(** * pyremoteplay: the control-session engine ([ctrl.py], [util.py])

    A shallow embedding of the Remote Play control channel: the two
    key-derivation transforms, the 8-byte message framing, the message
    dispatch of [CTRL._handle], the outbound helpers and the init-phase
    response parsing, followed by the properties of the specification
    that concern them.

    Conventions.
    - A Python [bytes]/[bytearray] value is a [list Z]; [is_bytes] says
      that every element is in [0, 256).
    - Code that can raise returns a [result]; an exception that leaves a
      method aborts it, and the session state at that point is dropped
      (an exception escaping [_handle] ends the listener thread).
    - Methods of [CTRL] take the session record and return the new one.
    - A reading of [time.time()] is a double: a primitive binary64
      float, with the subtraction and comparison of IEEE 754. *)

From Stdlib Require Import ZArith Lia.
From Stdlib Require Import Floats.PrimFloat.
From stdpp Require Import base option list strings gmap.

Local Open Scope Z_scope.

Abbreviation bytes := (list Z).

(** ** Python values and exceptions *)

Module Py.

Inductive exn :=
| IndexError
| ValueError
| TypeError
| AttributeError
| StructError
| OSError.

Inductive result (A : Type) :=
| Ok (a : A)
| Raise (e : exn).
Arguments Ok {A} a.
Arguments Raise {A} e.

#[global] Instance result_ret : MRet result := λ A a, Ok a.
#[global] Instance result_bind : MBind result := λ A B f m,
  match m with
  | Ok a => f a
  | Raise e => Raise e
  end.

Definition is_bytes (b : bytes) : Prop := Forall (λ x, 0 ≤ x < 256) b.

(** [b[i]] for a non-negative index. *)
Definition getitem (b : bytes) (i : nat) : result Z :=
  match b !! i with
  | Some x => Ok x
  | None => Raise IndexError
  end.

(** [b[i] = v] on a bytearray. *)
Definition setitem (b : bytes) (i : nat) (v : Z) : result bytes :=
  if decide (i < length b)%nat then
    if decide (0 ≤ v < 256) then Ok (<[i:=v]> b) else Raise ValueError
  else Raise IndexError.

(** [bytearray(n)]. *)
Definition bytearray (n : nat) : bytes := replicate n 0.

(** [for x in xs: s = body(s, x)]. *)
Fixpoint for_each {A S : Type} (body : S → A → result S)
    (xs : list A) (s : S) : result S :=
  match xs with
  | [] => Ok s
  | x :: xs' => s' ← body s x; for_each body xs' s'
  end.

(** [range(a, a + n)]. *)
Definition range (a n : nat) : list nat := seq a n.

End Py.
Import Py.

(** ** Key derivation ([_get_rp_nonce], [_get_aes_key]) *)

(** Modelled from the spec: [RP_CRYPT_SIZE] of [const.py], which is not
    among the sources; both derivations run over indices 0..16. *)
Definition RP_CRYPT_SIZE : nat := 16.

Section KeyDerivation.

(** The two lookup tables of [keys.py], which is not among the sources. *)
Variables CTRL_KEY_0 CTRL_KEY_1 : bytes.

Definition rp_nonce_body (nonce key : bytes) (rp_nonce : bytes)
    (index : nat) : result bytes :=
  n ← getitem nonce index;
  let shift := n + 54 + Z.of_nat index in
  k ← getitem key index;
  let shift := Z.lxor shift k in
  setitem rp_nonce index (shift `mod` 256).

Definition _get_rp_nonce (nonce : bytes) : result bytes :=
  let rp_nonce := bytearray RP_CRYPT_SIZE in
  n0 ← getitem nonce 0;
  let key := drop (Z.to_nat ((n0 ≫ 3) * 112)) CTRL_KEY_0 in
  for_each (rp_nonce_body nonce key) (range 0 RP_CRYPT_SIZE) rp_nonce.

Definition aes_key_body (nonce rp_key key : bytes) (aes_key : bytes)
    (index : nat) : result bytes :=
  k ← getitem key index;
  r ← getitem rp_key index;
  let shift := Z.lxor k r + 33 + Z.of_nat index in
  n ← getitem nonce index;
  let shift := Z.lxor shift n in
  setitem aes_key index (shift `mod` 256).

Definition _get_aes_key (nonce rp_key : bytes) : result bytes :=
  let aes_key := bytearray 16 in
  n7 ← getitem nonce 7;
  let key := drop (Z.to_nat ((n7 ≫ 3) * 112)) CTRL_KEY_1 in
  for_each (aes_key_body nonce rp_key key) (range 0 RP_CRYPT_SIZE) aes_key.

End KeyDerivation.

(** ** Byte-level helpers of the Python standard library *)

Module Bytes.

(** [int.to_bytes(n, width, "big")] for [0 <= n < 256^width]. *)
Fixpoint to_be (width : nat) (n : Z) : bytes :=
  match width with
  | O => []
  | S w => Z.land (n ≫ (8 * Z.of_nat w)) 255 :: to_be w n
  end.

(** [int.from_bytes(b, "big")]. *)
Definition from_be (b : bytes) : Z :=
  foldl (λ acc x, acc * 256 + x) 0 b.

Definition in_range (lo hi x : Z) : bool := (lo <=? x) && (x <=? hi).

Definition cont (x : Z) : bool := in_range 0x80 0xBF x.

(** Whether [b.decode()] succeeds: strict UTF-8, the well-formed byte
    sequences of the Unicode standard (no overlong forms, no
    surrogates, nothing above U+10FFFF). *)
Fixpoint utf8_valid (b : bytes) : bool :=
  match b with
  | [] => true
  | b0 :: r0 =>
    if in_range 0x00 0x7F b0 then utf8_valid r0
    else match r0 with
    | [] => false
    | b1 :: r1 =>
      if in_range 0xC2 0xDF b0 then cont b1 && utf8_valid r1
      else match r1 with
      | [] => false
      | b2 :: r2 =>
        if b0 =? 0xE0 then in_range 0xA0 0xBF b1 && cont b2 && utf8_valid r2
        else if in_range 0xE1 0xEC b0 then cont b1 && cont b2 && utf8_valid r2
        else if b0 =? 0xED then in_range 0x80 0x9F b1 && cont b2 && utf8_valid r2
        else if in_range 0xEE 0xEF b0 then cont b1 && cont b2 && utf8_valid r2
        else match r2 with
        | [] => false
        | b3 :: r3 =>
          if b0 =? 0xF0 then
            in_range 0x90 0xBF b1 && cont b2 && cont b3 && utf8_valid r3
          else if in_range 0xF1 0xF3 b0 then
            cont b1 && cont b2 && cont b3 && utf8_valid r3
          else if b0 =? 0xF4 then
            in_range 0x80 0x8F b1 && cont b2 && cont b3 && utf8_valid r3
          else false
        end
      end
    end
  end.

Definition hex_digit (c : Ascii.ascii) : option Z :=
  let n := Z.of_N (Ascii.N_of_ascii c) in
  if in_range 48 57 n then Some (n - 48)
  else if in_range 97 102 n then Some (n - 87)
  else if in_range 65 70 n then Some (n - 55)
  else None.

(** The ASCII whitespace that [bytes.fromhex] skips between bytes. *)
Definition is_space (c : Ascii.ascii) : bool :=
  let n := Z.of_N (Ascii.N_of_ascii c) in
  (n =? 32) || in_range 9 13 n.

(** [bytes.fromhex(s)]: two hexadecimal digits per byte, whitespace
    allowed between bytes; anything else is a [ValueError]. *)
Fixpoint fromhex (s : string) : result bytes :=
  match s with
  | EmptyString => Ok []
  | String c s' =>
    if is_space c then fromhex s'
    else match hex_digit c, s' with
    | Some top, String d s'' =>
      match hex_digit d with
      | Some bot => rest ← fromhex s''; Ok ((top ≪ 4) + bot :: rest)
      | None => Raise ValueError
      end
    | _, _ => Raise ValueError
    end
  end.

Definition lower_ascii (c : Ascii.ascii) : Ascii.ascii :=
  let n := Ascii.N_of_ascii c in
  if in_range 65 90 (Z.of_N n) then Ascii.ascii_of_N (n + 32) else c.

(** [s.lower()] on ASCII text. *)
Fixpoint lower (s : string) : string :=
  match s with
  | EmptyString => EmptyString
  | String c s' => String (lower_ascii c) (lower s')
  end.

End Bytes.

(** ** The session cipher *)

Module RPCipher.

(** Modelled from the spec: the class [RPCipher] of [crypt.py], which is
    not among the sources. A keystream cipher: [encrypt] and [decrypt]
    XOR the buffer against the keystream fixed by key and nonce, from
    the current position on, return a buffer of the same length and
    advance the position by the number of bytes consumed. One position
    serves both directions. *)
Record t := new { key : bytes; nonce : bytes; counter : nat }.

Section Keystream.

(** The AES primitive (external library): the keystream byte that key
    and nonce give at an absolute position. *)
Variable keystream : bytes → bytes → nat → Z.

Fixpoint xor_stream (ks : nat → Z) (pos : nat) (buf : bytes) : bytes :=
  match buf with
  | [] => []
  | b :: buf' => Z.lxor b (ks pos) :: xor_stream ks (S pos) buf'
  end.

Definition advance (c : t) (n : nat) : t :=
  {| key := key c; nonce := nonce c; counter := (counter c + n)%nat |}.

Definition encrypt (c : t) (buf : bytes) : bytes * t :=
  (xor_stream (keystream (key c) (nonce c)) (counter c) buf,
   advance c (length buf)).

Definition decrypt (c : t) (buf : bytes) : bytes * t :=
  (xor_stream (keystream (key c) (nonce c)) (counter c) buf,
   advance c (length buf)).

End Keystream.

End RPCipher.

(** ** The control session ([class CTRL]) *)

(** [HEARTBEAT_RESPONSE], the literal payload of the heartbeat echo. *)
Definition HEARTBEAT_RESPONSE : bytes := [0x00; 0x00; 0x00; 0x00; 0x01; 0xfe; 0x00; 0x00].

Module MessageType.

Inductive t :=
| LOGIN_PIN_REQUEST
| LOGIN_PIN_RESPONSE
| LOGIN
| SESSION_ID
| HEARTBEAT_REQUEST
| HEARTBEAT_RESPONSE
| STANDBY
| KEYBOARD_ENABLE_TOGGLE
| KEYBOARD_OPEN
| KEYBOARD_CLOSE_REMOTE
| KEYBOARD_TEXT_CHANGE_REQ
| KEYBOARD_TEXT_CHANGE_RES
| KEYBOARD_CLOSE_REQ.

Definition value (m : t) : Z :=
  match m with
  | LOGIN_PIN_REQUEST => 0x04
  | LOGIN_PIN_RESPONSE => 0x8004
  | LOGIN => 0x05
  | SESSION_ID => 0x33
  | HEARTBEAT_REQUEST => 0xfe
  | HEARTBEAT_RESPONSE => 0x1fe
  | STANDBY => 0x50
  | KEYBOARD_ENABLE_TOGGLE => 0x20
  | KEYBOARD_OPEN => 0x21
  | KEYBOARD_CLOSE_REMOTE => 0x22
  | KEYBOARD_TEXT_CHANGE_REQ => 0x23
  | KEYBOARD_TEXT_CHANGE_RES => 0x24
  | KEYBOARD_CLOSE_REQ => 0x25
  end.

Definition members : list t :=
  [LOGIN_PIN_REQUEST; LOGIN_PIN_RESPONSE; LOGIN; SESSION_ID;
   HEARTBEAT_REQUEST; HEARTBEAT_RESPONSE; STANDBY; KEYBOARD_ENABLE_TOGGLE;
   KEYBOARD_OPEN; KEYBOARD_CLOSE_REMOTE; KEYBOARD_TEXT_CHANGE_REQ;
   KEYBOARD_TEXT_CHANGE_RES; KEYBOARD_CLOSE_REQ].

(** [CTRL.MessageType(v)]: the member whose value is [v]; [None] stands
    for the [ValueError] of the enum lookup. *)
Definition of_value (v : Z) : option t :=
  List.find (λ m, value m =? v) members.

(** [m1 == m2] on an [IntEnum]: comparison of the values. *)
Definition eqb (m1 m2 : t) : bool := value m1 =? value m2.

End MessageType.

Module Error.

Inductive t :=
| REGIST_FAILED
| INVALID_PSN_ID
| RP_IN_USE
| CRASH
| RP_VERSION_MISMATCH
| UNKNOWN.

Definition value (e : t) : Z :=
  match e with
  | REGIST_FAILED => 0x80108b09
  | INVALID_PSN_ID => 0x80108b02
  | RP_IN_USE => 0x80108b10
  | CRASH => 0x80108b15
  | RP_VERSION_MISMATCH => 0x80108b11
  | UNKNOWN => 0x80108bff
  end.

Definition name (e : t) : string :=
  match e with
  | REGIST_FAILED => "REGIST_FAILED"
  | INVALID_PSN_ID => "INVALID_PSN_ID"
  | RP_IN_USE => "RP_IN_USE"
  | CRASH => "CRASH"
  | RP_VERSION_MISMATCH => "RP_VERSION_MISMATCH"
  | UNKNOWN => "UNKNOWN"
  end.

Definition members : list t :=
  [REGIST_FAILED; INVALID_PSN_ID; RP_IN_USE; CRASH; RP_VERSION_MISMATCH; UNKNOWN].

(** [CTRL.Error(v)]; [None] stands for the [ValueError] of the lookup. *)
Definition of_value (v : Z) : option t :=
  List.find (λ e, value e =? v) members.

End Error.

Inductive State := STATE_INIT | STATE_READY.

(** The socket handed over by the handshake, seen from the session: the
    buffers passed to [send], oldest first, and whether [close] was
    called. *)
Record socket := { sent : list bytes; closed : bool }.

(** Records emitted on the module logger at level info and above. *)
Inductive log_record :=
| LogNoDevice
| LogInitFailed (reason : string)
| LogAuthFailed
| LogAuthSuccess
| LogInvalidMessageType (b : Z)
| LogMalformedSessionId
| LogHBTimeout
| LogSessionIdNotReceived
| LogStopped.

(** Calls into the external collaborators. *)
Inductive event :=
| CbStart
| StreamConnect (test : bool).

(** The attributes of a [CTRL] instance that the control engine reads and
    writes, then the part of the world it acts on: [clock] counts the
    calls of [time.time()], [log] and [events] grow at the end. [_stream]
    holds the test flag of the [RPStream], [_cb_start] whether a callback
    is registered, [_worker] whether the listener thread was started. *)
Record CTRL := {
  _session_id : bytes;
  _sock : option socket;
  _send_buf : list bytes;
  _stop_event : bool;
  _hb_last : float;
  _cipher : option RPCipher.t;
  _state : State;
  _stream : option bool;
  _cb_start : bool;
  _worker : bool;
  clock : nat;
  log : list log_record;
  events : list event
}.

Definition set_session_id (s : CTRL) (v : bytes) : CTRL :=
  {| _session_id := v; _sock := _sock s; _send_buf := _send_buf s;
     _stop_event := _stop_event s; _hb_last := _hb_last s;
     _cipher := _cipher s; _state := _state s; _stream := _stream s;
     _cb_start := _cb_start s; _worker := _worker s; clock := clock s;
     log := log s; events := events s |}.

Definition set_sock (s : CTRL) (v : option socket) : CTRL :=
  {| _session_id := _session_id s; _sock := v; _send_buf := _send_buf s;
     _stop_event := _stop_event s; _hb_last := _hb_last s;
     _cipher := _cipher s; _state := _state s; _stream := _stream s;
     _cb_start := _cb_start s; _worker := _worker s; clock := clock s;
     log := log s; events := events s |}.

Definition set_send_buf (s : CTRL) (v : list bytes) : CTRL :=
  {| _session_id := _session_id s; _sock := _sock s; _send_buf := v;
     _stop_event := _stop_event s; _hb_last := _hb_last s;
     _cipher := _cipher s; _state := _state s; _stream := _stream s;
     _cb_start := _cb_start s; _worker := _worker s; clock := clock s;
     log := log s; events := events s |}.

Definition set_stop_event (s : CTRL) (v : bool) : CTRL :=
  {| _session_id := _session_id s; _sock := _sock s;
     _send_buf := _send_buf s; _stop_event := v; _hb_last := _hb_last s;
     _cipher := _cipher s; _state := _state s; _stream := _stream s;
     _cb_start := _cb_start s; _worker := _worker s; clock := clock s;
     log := log s; events := events s |}.

Definition set_hb_last (s : CTRL) (v : float) : CTRL :=
  {| _session_id := _session_id s; _sock := _sock s;
     _send_buf := _send_buf s; _stop_event := _stop_event s; _hb_last := v;
     _cipher := _cipher s; _state := _state s; _stream := _stream s;
     _cb_start := _cb_start s; _worker := _worker s; clock := clock s;
     log := log s; events := events s |}.

Definition set_cipher (s : CTRL) (v : option RPCipher.t) : CTRL :=
  {| _session_id := _session_id s; _sock := _sock s;
     _send_buf := _send_buf s; _stop_event := _stop_event s;
     _hb_last := _hb_last s; _cipher := v; _state := _state s;
     _stream := _stream s; _cb_start := _cb_start s; _worker := _worker s;
     clock := clock s; log := log s; events := events s |}.

Definition set_state (s : CTRL) (v : State) : CTRL :=
  {| _session_id := _session_id s; _sock := _sock s;
     _send_buf := _send_buf s; _stop_event := _stop_event s;
     _hb_last := _hb_last s; _cipher := _cipher s; _state := v;
     _stream := _stream s; _cb_start := _cb_start s; _worker := _worker s;
     clock := clock s; log := log s; events := events s |}.

Definition set_stream (s : CTRL) (v : option bool) : CTRL :=
  {| _session_id := _session_id s; _sock := _sock s;
     _send_buf := _send_buf s; _stop_event := _stop_event s;
     _hb_last := _hb_last s; _cipher := _cipher s; _state := _state s;
     _stream := v; _cb_start := _cb_start s; _worker := _worker s;
     clock := clock s; log := log s; events := events s |}.

Definition set_worker (s : CTRL) (v : bool) : CTRL :=
  {| _session_id := _session_id s; _sock := _sock s;
     _send_buf := _send_buf s; _stop_event := _stop_event s;
     _hb_last := _hb_last s; _cipher := _cipher s; _state := _state s;
     _stream := _stream s; _cb_start := _cb_start s; _worker := v;
     clock := clock s; log := log s; events := events s |}.

Definition set_clock (s : CTRL) (v : nat) : CTRL :=
  {| _session_id := _session_id s; _sock := _sock s;
     _send_buf := _send_buf s; _stop_event := _stop_event s;
     _hb_last := _hb_last s; _cipher := _cipher s; _state := _state s;
     _stream := _stream s; _cb_start := _cb_start s; _worker := _worker s;
     clock := v; log := log s; events := events s |}.

Definition set_log (s : CTRL) (v : list log_record) : CTRL :=
  {| _session_id := _session_id s; _sock := _sock s;
     _send_buf := _send_buf s; _stop_event := _stop_event s;
     _hb_last := _hb_last s; _cipher := _cipher s; _state := _state s;
     _stream := _stream s; _cb_start := _cb_start s; _worker := _worker s;
     clock := clock s; log := v; events := events s |}.

Definition set_events (s : CTRL) (v : list event) : CTRL :=
  {| _session_id := _session_id s; _sock := _sock s;
     _send_buf := _send_buf s; _stop_event := _stop_event s;
     _hb_last := _hb_last s; _cipher := _cipher s; _state := _state s;
     _stream := _stream s; _cb_start := _cb_start s; _worker := _worker s;
     clock := clock s; log := log s; events := v |}.

Definition __init__ (cb_start : bool) : CTRL :=
  {| _session_id := [];
     _sock := None;
     _send_buf := [];
     _stop_event := false;
     _hb_last := 0%float;
     _cipher := None;
     _state := STATE_INIT;
     _stream := None;
     _cb_start := cb_start;
     _worker := false;
     clock := 0%nat;
     log := [];
     events := [] |}.

Definition HEADER_LENGTH : nat := 8.

Definition add_log (s : CTRL) (r : log_record) : CTRL := set_log s (log s ++ [r]).

Definition add_event (s : CTRL) (e : event) : CTRL := set_events s (events s ++ [e]).

(** [struct.pack("!IHxx{n}s", size, msg_type, payload)]: [I] and [H]
    refuse a value outside their range, [x] is a zero byte, [{n}s] takes
    [n] bytes of the payload, padded with zeros. *)
Definition pack (n : nat) (size msg_type : Z) (payload : bytes) : result bytes :=
  if negb (Bytes.in_range 0 0xFFFFFFFF size) then Raise StructError
  else if negb (Bytes.in_range 0 0xFFFF msg_type) then Raise StructError
  else Ok (Bytes.to_be 4 size ++ Bytes.to_be 2 msg_type ++ [0; 0]
           ++ take n (payload ++ replicate n 0)).

(** [struct.pack_into(fmt, buf, 0, ...)]: the packed bytes overwrite the
    start of the buffer, which must be large enough. *)
Definition pack_into (n : nat) (buf : bytes) (size msg_type : Z)
    (payload : bytes) : result bytes :=
  packed ← pack n size msg_type payload;
  if decide (length packed ≤ length buf)%nat
  then Ok (packed ++ drop (length packed) buf)
  else Raise StructError.

Section Session.

(** The keystream of the AES primitive and the readings of the wall
    clock, one per call of [time.time()], in seconds. A reading is a
    double, as [time.time()] returns it: differences and comparisons of
    readings are those of IEEE 754 binary64, rounded to nearest. *)
Variable keystream : bytes → bytes → nat → Z.
Variable wall_clock : nat → float.

Definition time_time (s : CTRL) : float * CTRL :=
  (wall_clock (clock s), set_clock s (S (clock s))).

(** [self._cipher.encrypt(buf)] and [self._cipher.decrypt(buf)]. *)
Definition cipher_encrypt (s : CTRL) (buf : bytes) : result (bytes * CTRL) :=
  match _cipher s with
  | None => Raise AttributeError
  | Some c =>
    let '(out, c') := RPCipher.encrypt keystream c buf in
    Ok (out, set_cipher s (Some c'))
  end.

Definition cipher_decrypt (s : CTRL) (buf : bytes) : result (bytes * CTRL) :=
  match _cipher s with
  | None => Raise AttributeError
  | Some c =>
    let '(out, c') := RPCipher.decrypt keystream c buf in
    Ok (out, set_cipher s (Some c'))
  end.

(** [self._sock.send(msg)]. *)
Definition sock_send (s : CTRL) (msg : bytes) : result CTRL :=
  match _sock s with
  | None => Raise AttributeError
  | Some k =>
    if closed k then Raise OSError
    else Ok (set_sock s (Some {| sent := sent k ++ [msg]; closed := false |}))
  end.

(** [CTRL._build_msg]: the value of [encrypt] is not bound to anything,
    and [pack_into] receives [payload] as it was passed in. *)
Definition _build_msg (s : CTRL) (msg_type : Z) (payload : bytes)
    : result (bytes * CTRL) :=
  let payload_size := length payload in
  '(_, s) ← cipher_encrypt s payload;
  let buf := bytearray (HEADER_LENGTH + payload_size) in
  buf ← pack_into payload_size buf (Z.of_nat payload_size) msg_type payload;
  Ok (buf, s).

Definition _send_hb_response (s : CTRL) : result CTRL :=
  '(msg, s) ← _build_msg s (MessageType.value MessageType.HEARTBEAT_RESPONSE)
                 HEARTBEAT_RESPONSE;
  sock_send s msg.

Definition _send_hb_request (s : CTRL) : result CTRL :=
  '(msg, s) ← _build_msg s (MessageType.value MessageType.HEARTBEAT_REQUEST) [];
  sock_send s msg.

Definition _send_standby (s : CTRL) : result CTRL :=
  '(msg, s) ← _build_msg s (MessageType.value MessageType.STANDBY) [];
  sock_send s msg.

(** [CTRL.send]: at most one queued buffer per call. *)
Definition send (s : CTRL) : result CTRL :=
  match _send_buf s with
  | [] => Ok s
  | data_send :: rest => sock_send (set_send_buf s rest) data_send
  end.

(** [CTRL.start_stream]; the [RPStream] itself is the external streaming
    collaborator. *)
Definition start_stream (s : CTRL) (test : bool) : CTRL :=
  if bool_decide (_session_id s = []) then add_log s LogSessionIdNotReceived
  else add_event (set_stream s (Some test)) (StreamConnect test).

(** Lines 264-266 of [_handle]: the heartbeat staleness check,
    [time.time() - self._hb_last > 5]. The two operands are doubles (the
    initial [_hb_last], the integer 0, converts to the double 0 exactly),
    the difference is rounded to a double, and the comparison with the
    integer 5 is the one with the double 5. *)
Definition heartbeat_check (s : CTRL) : result CTRL :=
  let '(now, s) := time_time s in
  if (5 <? now - _hb_last s)%float
  then _send_hb_request (add_log s LogHBTimeout)
  else Ok s.

(** Lines 234-239 of [_handle]: what the dispatch reads from the buffer,
    the decrypted payload and the value [data[5]] that it looks up in
    [MessageType]. *)
Definition decode (s : CTRL) (data : bytes) : result (Z * bytes * CTRL) :=
  let payload := drop 8 data in
  '(payload, s) ← (if bool_decide (payload ≠ []) then cipher_decrypt s payload
                   else Ok (payload, s));
  b ← getitem data 5;
  Ok (b, payload, s).

(** [CTRL._handle]. The two [return] statements of the source are the two
    branches that do not reach [heartbeat_check]. *)
Definition _handle (s : CTRL) (data : bytes) : result CTRL :=
  '(b, payload, s) ← decode s data;
  match MessageType.of_value b with
  | None => Ok (add_log s (LogInvalidMessageType b))
  | Some msg_type =>
    s ← (if MessageType.eqb msg_type MessageType.HEARTBEAT_REQUEST then
           let '(now, s) := time_time s in
           _send_hb_response (set_hb_last s now)
         else Ok s);
    if MessageType.eqb msg_type MessageType.HEARTBEAT_RESPONSE then
      let '(now, s) := time_time s in
      heartbeat_check (set_hb_last s now)
    else if MessageType.eqb msg_type MessageType.SESSION_ID then
      let session_id := drop 2 payload in
      if Bytes.utf8_valid session_id then
        let s := set_session_id s session_id in
        let s := if _cb_start s then add_event s CbStart
                 else start_stream s true in
        heartbeat_check s
      else Ok (add_log s LogMalformedSessionId)
    else heartbeat_check s
  end.

(** The [while] loop of [util.listener], run against the results of its
    successive read attempts: [None] when [select] reports nothing to
    read, [Some data] for what [recv] returns. The loop ends when the stop
    event is set, and the socket is closed; a trace that ends earlier
    leaves the loop running. *)
Fixpoint listener_loop (handle : CTRL → bytes → result CTRL)
    (reads : list (option bytes)) (s : CTRL) : result CTRL :=
  if _stop_event s then
    match _sock s with
    | None => Raise AttributeError
    | Some k =>
      Ok (add_log (set_sock s (Some {| sent := sent k; closed := true |}))
                  LogStopped)
    end
  else
    match reads with
    | [] => Ok s
    | None :: reads' => listener_loop handle reads' s
    | Some data :: reads' =>
      s ← (if (0 <? length data)%nat then handle s data
           else Ok (set_stop_event s true));
      listener_loop handle reads' s
    end.

(** [util.listener(name, sock, handle, stop_event)]. *)
Definition listener (handle : CTRL → bytes → result CTRL)
    (reads : list (option bytes)) (s : CTRL) : result CTRL :=
  listener_loop handle reads (set_stop_event s false).

(** The worker thread of [CTRL.start]: [listener] is given the five
    arguments [("CTRL", sock, _handle, send, stop_event)], while
    [util.listener] has four parameters [(name, sock, handle,
    stop_event)], so the call raises before the loop is entered. *)
Definition listener_parameters : nat := 4.

Definition worker_arguments : nat := 5.

Definition worker (reads : list (option bytes)) (s : CTRL) : result CTRL :=
  if decide (worker_arguments = listener_parameters)
  then listener _handle reads s
  else Raise TypeError.

(** *** The handshake *)

(** An HTTP response as the session reads it: the status and the header
    dictionary. The dictionary of [requests] compares names without
    regard to case: it is keyed by the lower-cased name, and a lookup
    lower-cases the name it is given. *)
Record Response := { status_code : Z; headers : gmap string string }.

Definition headers_get (r : Response) (name : string) : option string :=
  headers r !! Bytes.lower name.

(** [base64.b64decode] of the standard library, and the key/header and
    auth phases ([_get_ctrl_headers] then [_send_auth]) that [connect]
    runs on the decoded nonce. *)
Variable b64decode : string → result bytes.
Variable auth_phase : CTRL → bytes → result (bool * CTRL).

Definition _parse_init (s : CTRL) (response : Response)
    : result (option bytes * CTRL) :=
  s ← (if bool_decide (status_code response ≠ 200) then
         match headers_get response "RP-Application-Reason" with
         | None => Raise TypeError
         | Some reason =>
           b ← Bytes.fromhex reason;
           let reason := Bytes.from_be b in
           match Error.of_value reason with
           | None => Raise ValueError
           | Some e => Ok (add_log s (LogInitFailed (Error.name e)))
           end
         end
       else Ok s);
  match headers_get response "RP-Nonce" with
  | None => Ok (None, s)
  | Some nonce => nonce ← b64decode nonce; Ok (Some nonce, s)
  end.

Definition connect (s : CTRL) (response : Response) : result (bool * CTRL) :=
  '(nonce, s) ← _parse_init s response;
  match nonce with
  | None => Ok (false, s)
  | Some nonce => auth_phase s nonce
  end.

(** [CTRL.start]: [Some false] for [return False], [None] when the method
    falls off its end. [host_available] is the answer of [_check_host]. *)
Definition start (s : CTRL) (host_available : bool) (response : Response)
    : result (option bool * CTRL) :=
  if negb host_available then Ok (Some false, add_log s LogNoDevice)
  else
    '(ok, s) ← connect s response;
    if negb ok then Ok (Some false, add_log s LogAuthFailed)
    else
      let s := add_log s LogAuthSuccess in
      let s := set_state s STATE_READY in
      Ok (None, set_worker s true).

End Session.

(** ** The wording of the specification *)

(** §4.1, [derive_session_nonce]: the TABLE_A block chosen by
    [server_nonce[0] >> 3], then for every index i in 0..16 the byte
    [(server_nonce[i] + 54 + i) XOR table_block[i]] modulo 256. *)
Definition derive_session_nonce (TABLE_A server_nonce : bytes) : bytes :=
  let table_block :=
    drop (Z.to_nat (((server_nonce !!! 0%nat) ≫ 3) * 112)) TABLE_A in
  (λ i : nat, Z.lxor ((server_nonce !!! i) + 54 + Z.of_nat i)
                     (table_block !!! i) `mod` 256) <$> seq 0 16.

(** §4.1, [derive_aes_key]: the TABLE_B block chosen by
    [server_nonce[7] >> 3], then for every index i in 0..16 the byte
    [((table_block[i] XOR pairing_key[i]) + 33 + i) XOR server_nonce[i]]
    modulo 256. *)
Definition derive_aes_key (TABLE_B server_nonce pairing_key : bytes) : bytes :=
  let table_block :=
    drop (Z.to_nat (((server_nonce !!! 7%nat) ≫ 3) * 112)) TABLE_B in
  (λ i : nat, Z.lxor (Z.lxor (table_block !!! i) (pairing_key !!! i)
                      + 33 + Z.of_nat i)
                     (server_nonce !!! i) `mod` 256) <$> seq 0 16.

(** §4.4, the 8-byte header: payload length as u32 big-endian, message
    type as u16 big-endian, two reserved zero bytes. *)
Definition header (payload_length msg_type : Z) : bytes :=
  Bytes.to_be 4 payload_length ++ Bytes.to_be 2 msg_type ++ [0; 0].

(** §4.4, encoding: the payload encrypted under the session cipher, behind
    a header whose length field is the length of the ciphertext. *)
Definition frame (keystream : bytes → bytes → nat → Z) (c : RPCipher.t)
    (msg_type : Z) (payload : bytes) : bytes :=
  let ciphertext := (RPCipher.encrypt keystream c payload).1 in
  header (Z.of_nat (length ciphertext)) msg_type ++ ciphertext.


(** ** Observations on a session *)

(** The buffers written to the socket so far. *)
Definition sock_sent (s : CTRL) : list bytes :=
  match _sock s with
  | Some k => sent k
  | None => []
  end.

(** A session after a successful handshake: it has its cipher and an open
    socket. *)
Definition ready (s : CTRL) : bool :=
  match _cipher s, _sock s with
  | Some _, Some k => negb (closed k)
  | _, _ => false
  end.

(** The message types whose handling records the time of a heartbeat. *)
Definition records_heartbeat (m : MessageType.t) : bool :=
  MessageType.eqb m MessageType.HEARTBEAT_REQUEST
  || MessageType.eqb m MessageType.HEARTBEAT_RESPONSE.

(** ** Sample data for the examples *)

Definition sample_table : bytes := (λ i : nat, Z.of_nat i * 7 `mod` 256) <$> seq 0 3584.

Definition sample_nonce : bytes := Z.of_nat <$> seq 0 16.

Definition sample_pairing_key : bytes := Z.of_nat <$> seq 16 16.

Definition sample_keystream (key nonce : bytes) (pos : nat) : Z :=
  (Z.of_nat pos * 37 + 11) `mod` 256.

Definition sample_cipher : RPCipher.t :=
  RPCipher.new (derive_aes_key sample_table sample_nonce sample_pairing_key)
               (derive_session_nonce sample_table sample_nonce) 0.

Definition sample_socket : socket := {| sent := []; closed := false |}.

Definition sample_session : CTRL :=
  set_state (set_cipher (set_sock (__init__ false) (Some sample_socket))
                        (Some sample_cipher)) STATE_READY.

(** A wall clock that reads [t] at every call. *)
Definition clock_at (t : float) : nat → float := λ _, t.

(** The frames of the examples, as the peer sends them. *)
Definition session_id_frame (id : bytes) : bytes :=
  frame sample_keystream sample_cipher (MessageType.value MessageType.SESSION_ID)
        ([0; 0] ++ id).

Definition malformed_session_id_frame : bytes :=
  session_id_frame [0xFF; 0xFE].

(** A frame whose message type 0x0133 is not in the enumeration. *)
Definition unlisted_type_frame : bytes :=
  frame sample_keystream sample_cipher 0x0133 [0; 0; 65].

(** An init response that rejects the session with a code that
    [CTRL.Error] does not list. *)
Definition rejected_response : Response :=
  {| status_code := 403;
     headers := {[ "rp-application-reason" := "80108b03" ]} |}.

(** The identities of the examples, ["ABC123"] and ["XYZ789"]. *)
Definition id_ABC123 : bytes := [65; 66; 67; 49; 50; 51].

Definition id_XYZ789 : bytes := [88; 89; 90; 55; 56; 57].

(** A second SESSION_ID frame, sent after one with a 6-byte identity: the
    peer's keystream has moved on by the 8 bytes of the first payload. *)
Definition second_session_id_frame (id : bytes) : bytes :=
  frame sample_keystream (RPCipher.advance sample_cipher 8)
        (MessageType.value MessageType.SESSION_ID) ([0; 0] ++ id).

Definition standby_frame : bytes :=
  frame sample_keystream sample_cipher (MessageType.value MessageType.STANDBY) [].

(** An init response that rejects the session with a listed code and
    carries a nonce header all the same. *)
Definition rejected_response_with_nonce : Response :=
  {| status_code := 403;
     headers := {[ "rp-application-reason" := "80108b09";
                   "rp-nonce" := "AAECAwQFBgcICQoLDA0ODw==" ]} |}.

(** ** Integers and bytes ([util.from_b], [util.to_b]) *)

Inductive byteorder := big | little.

(** [util.from_b]: [int.from_bytes(_bytes, order)]. *)
Definition from_b (_bytes : bytes) (order : byteorder) : Z :=
  match order with
  | big => Bytes.from_be _bytes
  | little => Bytes.from_be (reverse _bytes)
  end.

(** [util.to_b]: [int.to_bytes(_int, length, order)]; [None] stands for
    the [OverflowError] raised for a negative integer and for one that
    does not fit in [length] bytes. *)
Definition to_b (_int : Z) (length : nat) (order : byteorder) : option bytes :=
  if (0 <=? _int) && (_int <? 256 ^ Z.of_nat length) then
    Some match order with
         | big => Bytes.to_be length _int
         | little => reverse (Bytes.to_be length _int)
         end
  else None.

(** A table of 32 blocks made of bytes, for the examples that need one. *)
Definition byte_table : bytes :=
  (λ i : nat, (Z.of_nat i * 7) `mod` 256) <$> seq 0 3584.

(** The session of the examples after a STANDBY frame handled 30 seconds
    after the last recorded heartbeat. *)
Definition after_standby : CTRL :=
  Eval vm_compute in
    match _handle sample_keystream (clock_at 30) sample_session standby_frame with
    | Ok s => s
    | Raise _ => sample_session
    end.

(** An init response that rejects the session with a listed code. *)
Definition in_use_response : Response :=
  {| status_code := 403;
     headers := {[ "rp-application-reason" := "80108b10" ]} |}.

(** An init response with status 200 and no nonce. *)
Definition empty_ok_response : Response :=
  {| status_code := 200; headers := ∅ |}.

(** ** The key/header and auth phases of the handshake *)

(** [DID_PREFIX]. *)
Definition DID_PREFIX : bytes :=
  [0x00; 0x18; 0x00; 0x00; 0x00; 0x07; 0x00; 0x40; 0x00; 0x80].

(** [_gen_did], given the value of [get_random_bytes(16)]. *)
Definition _gen_did (random : bytes) : bytes :=
  DID_PREFIX ++ random ++ bytearray 6.

(** [b.ljust(width, b'\x00')]. *)
Definition ljust (b : bytes) (width : nat) : bytes :=
  b ++ replicate (width - length b) 0.

(** The attributes that [_init_attrs] reads from the registration data
    and that nothing changes afterwards. *)
Record Registration := {
  _host : string;
  _regist_key : string;
  _rp_key : bytes
}.

Section Auth.

(** The tables of [keys.py], the constants of [const.py] ([OS_TYPE]
    already encoded, [RP_PORT] as it prints), the AES keystream, and
    [base64.b64encode] followed by [decode], [base64.b64decode]. *)
Variables CTRL_KEY_0 CTRL_KEY_1 : bytes.
Variable OS_TYPE : bytes.
Variables RP_PORT USER_AGENT RP_VERSION : string.
Variable keystream : bytes → bytes → nat → Z.
Variable b64encode : bytes → string.
Variable b64decode : string → result bytes.

(** The module-level [_get_ctrl_headers]: a plain dictionary. *)
Definition _get_ctrl_headers (host auth did os_type bitrate : string)
    : gmap string string :=
  list_to_map
    [("Host", host +:+ ":" +:+ RP_PORT);
     ("User-Agent", USER_AGENT);
     ("Connection", "keep-alive");
     ("Content-Length", "0");
     ("RP-Auth", auth);
     ("RP-Version", RP_VERSION);
     ("RP-Did", did);
     ("RP-ControllerType", "3");
     ("RP-ClientType", "11");
     ("RP-OSType", os_type);
     ("RP-ConPath", "1");
     ("RP-StartBitrate", bitrate)].

(** The method [CTRL._get_ctrl_headers]: a new cipher at position 0, then
    four encryptions in this order. *)
Definition CTRL__get_ctrl_headers (reg : Registration) (random : bytes)
    (s : CTRL) (nonce : bytes) : result (gmap string string * CTRL) :=
  rp_nonce ← _get_rp_nonce CTRL_KEY_0 nonce;
  aes_key ← _get_aes_key CTRL_KEY_1 nonce (_rp_key reg);
  let s := set_cipher s (Some (RPCipher.new aes_key rp_nonce 0)) in
  regist_key ← Bytes.fromhex (_regist_key reg);
  let regist_key := regist_key ++ bytearray 8 in
  '(auth, s) ← cipher_encrypt keystream s regist_key;
  '(did, s) ← cipher_encrypt keystream s (_gen_did random);
  '(os_type, s) ← cipher_encrypt keystream s (ljust OS_TYPE 10);
  '(bitrate, s) ← cipher_encrypt keystream s (bytearray 4);
  Ok (_get_ctrl_headers (_host reg) (b64encode auth) (b64encode did)
        (b64encode os_type) (b64encode bitrate), s).

(** [CTRL._send_auth], given the response to the request it sends. The
    third component is [self._server_type] as the call leaves it. On
    success the socket is the one of the response, open, with nothing
    written to it yet. *)
Definition _send_auth (s : CTRL) (response : Response)
    : result (bool * CTRL * option Z) :=
  let server_type := headers_get response "RP-Server-Type" in
  match server_type with
  | Some server_type =>
    if bool_decide (status_code response ≠ 200) then Ok (false, s, None)
    else
      raw ← b64decode server_type;
      '(plain, s) ← cipher_decrypt keystream s raw;
      Ok (true, set_sock s (Some {| sent := []; closed := false |}),
          Some (from_b plain little))
  | None => Ok (false, s, None)
  end.

(** What [connect] runs once it has a nonce. *)
Definition auth_phase_of (reg : Registration) (random : bytes)
    (response : Response) (s : CTRL) (nonce : bytes) : result (bool * CTRL) :=
  '(_, s) ← CTRL__get_ctrl_headers reg random s nonce;
  '(ok, s, _) ← _send_auth s response;
  Ok (ok, s).

End Auth.

(** ** Profiles ([util.add_profile]) *)

(** The Python values that profile data is made of, as [json.load]
    returns them, without floats. A dictionary is the list of its items
    in insertion order. *)
#[warnings="-register-all"] Inductive value :=
| VNone
| VBool (b : bool)
| VInt (n : Z)
| VStr (s : string)
| VList (l : list value)
| VDict (d : list (value * value)).

Abbreviation dict := (list (value * value)).

Inductive lookup_error := KeyError | UnhashableTypeError.

(** [bool(v)]. *)
Definition truthy (v : value) : bool :=
  match v with
  | VNone => false
  | VBool b => b
  | VInt n => negb (n =? 0)
  | VStr s => negb (String.eqb s "")
  | VList l => negb (bool_decide (l = []))
  | VDict d => negb (bool_decide (d = []))
  end.

(** [isinstance(v, str)]. *)
Definition is_str (v : value) : bool :=
  match v with
  | VStr _ => true
  | _ => false
  end.

(** Lists and dictionaries cannot be keys. *)
Definition hashable (v : value) : bool :=
  match v with
  | VList _ | VDict _ => false
  | _ => true
  end.

(** Equality of keys: [None] with itself, strings with equal strings,
    integers and booleans by their number ([True == 1]). *)
Definition key_eqb (k1 k2 : value) : bool :=
  match k1, k2 with
  | VNone, VNone => true
  | VStr s1, VStr s2 => String.eqb s1 s2
  | VInt n1, VInt n2 => n1 =? n2
  | VBool b1, VBool b2 => Bool.eqb b1 b2
  | VInt n, VBool b | VBool b, VInt n => n =? (if b then 1 else 0)
  | _, _ => false
  end.

(** [d.get(k)], [None] when the key is absent. *)
Fixpoint dict_get (d : dict) (k : value) : option value :=
  match d with
  | [] => None
  | (k', v) :: d' => if key_eqb k' k then Some v else dict_get d' k
  end.

(** [d[k] = v]: the value of an existing key is replaced where it is, a
    new key goes to the end. *)
Fixpoint dict_set (d : dict) (k v : value) : dict :=
  match d with
  | [] => [(k, v)]
  | (k', v') :: d' =>
    if key_eqb k' k then (k', v) :: d' else (k', v') :: dict_set d' k v
  end.

(** [d.update(other)]. *)
Definition dict_update (d other : dict) : dict :=
  foldl (λ acc kv, dict_set acc kv.1 kv.2) d other.

(** [util.add_profile(profiles, user_data)]: the dictionary that
    [profiles] names after the call, and the value returned. On success
    they are the same object; when the user id is refused the function
    returns a new empty dictionary and [profiles] is as before. *)
Definition add_profile (profiles user_data : dict)
    : lookup_error + (dict * dict) :=
  let user_id := default VNone (dict_get user_data (VStr "user_rpid")) in
  if negb (is_str user_id) && negb (truthy user_id) then inr (profiles, [])
  else
    match dict_get user_data (VStr "online_id") with
    | None => inl KeyError
    | Some name =>
      if negb (hashable name) then inl UnhashableTypeError
      else
        let profile :=
          [(name, VDict [(VStr "id", user_id); (VStr "hosts", VDict [])])] in
        let profiles := dict_update profiles profile in
        inr (profiles, profiles)
    end.

(** ** Sample data for the handshake and the profiles *)

Definition sample_registration : Registration :=
  {| _host := "192.168.0.2";
     _regist_key := "0a0b0c0d";
     _rp_key := sample_pairing_key |}.

Definition sample_random : bytes := replicate 16 0x5a.

(** The codec of the examples writes bytes as hexadecimal digits; it
    stands in for base64, of which only the decoding of the two response
    headers matters here. *)
Definition sample_decode : string → result bytes := Bytes.fromhex.

Definition sample_encode : bytes → string := λ _, "".

Definition nonce_response : Response :=
  {| status_code := 200;
     headers := {[ "rp-nonce" := "000102030405060708090a0b0c0d0e0f" ]} |}.

Definition short_nonce_response : Response :=
  {| status_code := 200; headers := {[ "rp-nonce" := "0001" ]} |}.

Definition auth_ok_response : Response :=
  {| status_code := 200; headers := {[ "rp-server-type" := "0100" ]} |}.

Definition sample_connect (s : CTRL) (response : Response)
    : result (bool * CTRL) :=
  connect sample_decode
    (auth_phase_of byte_table byte_table [87; 105; 110] "9295" "agent" "10.0"
       sample_keystream sample_encode sample_decode sample_registration
       sample_random auth_ok_response)
    s response.

Definition after_connect : CTRL :=
  Eval vm_compute in
    match sample_connect (__init__ false) nonce_response with
    | Ok (_, s) => s
    | Raise _ => __init__ false
    end.

Definition sample_user_data : dict :=
  [(VStr "user_rpid", VStr "dXNlcg=="); (VStr "online_id", VStr "alice")].

Definition sample_profiles : dict :=
  [(VStr "alice", VDict [(VStr "id", VStr "old");
                         (VStr "hosts", VDict [(VStr "ps4", VDict [])])]);
   (VStr "bob", VDict [(VStr "id", VStr "Ym9i"); (VStr "hosts", VDict [])])].

(** ** Buffers that are not one frame, and clock readings *)


(** A HEARTBEAT_REQUEST frame of the peer, sent once its keystream has
    moved on by [n] bytes. *)
Definition heartbeat_request_frame (n : nat) : bytes :=
  frame sample_keystream (RPCipher.advance sample_cipher n)
        (MessageType.value MessageType.HEARTBEAT_REQUEST) [].



(** A wall clock that reads [t0] at the first call and [t1] afterwards. *)
Definition clock_readings (t0 t1 : float) : nat → float :=
  λ n, if n is O then t0 else t1.

(** The doubles nearest to 0.7 and to 5.7, which [time.time()] returns
    for those instants. As real numbers they are more than 5 apart; their
    difference as a double is 5. *)
Definition t_0_7 : float := 0x1.6666666666666p-1%float.

Definition t_5_7 : float := 0x1.6cccccccccccdp+2%float.

(** * Properties *)

(** ** Generic facts *)

Lemma bind_Ok {A B : Type} (a : A) (f : A → result B) : (Ok a ≫= f) = f a.
Proof. reflexivity. Qed.

Lemma getitem_lt (b : bytes) (i : nat) :
  (i < length b)%nat → getitem b i = Ok (b !!! i).
Proof.
  intros Hi. unfold getitem.
  destruct (lookup_lt_is_Some_2 b i Hi) as [x Hx].
  rewrite Hx. f_equal. symmetry. by apply list_lookup_total_correct.
Qed.

Lemma getitem_ge (b : bytes) (i : nat) :
  (length b ≤ i)%nat → getitem b i = Raise IndexError.
Proof. intros Hi. unfold getitem. by rewrite lookup_ge_None_2. Qed.

Lemma setitem_byte (b : bytes) (i : nat) (v : Z) :
  (i < length b)%nat → setitem b i (v `mod` 256) = Ok (<[i:=v `mod` 256]> b).
Proof.
  intros Hi. unfold setitem.
  rewrite decide_True by done.
  rewrite decide_True; [done|]. apply Z.mod_pos_bound. lia.
Qed.

(** A loop whose body stores [f i] at index [i] fills the array with the
    values of [f], left to right. *)
Lemma for_each_fill (body : bytes → nat → result bytes) (f : nat → Z) (N : nat) :
  (∀ acc i, (i < N)%nat → length acc = N → body acc i = Ok (<[i:=f i]> acc)) →
  ∀ n a acc, (a + n = N)%nat → length acc = N →
    for_each body (range a n) acc = Ok (take a acc ++ (f <$> seq a n)).
Proof.
  intros Hbody. unfold range.
  induction n as [|n IH]; intros a acc Han Hlen; simpl.
  - rewrite app_nil_r, take_ge by lia. done.
  - rewrite Hbody, bind_Ok by lia.
    rewrite IH by (rewrite ?length_insert; lia).
    f_equal. rewrite (take_S_r _ a (f a)).
    + rewrite take_insert_ge by lia. by rewrite <- app_assoc.
    + apply list_lookup_insert_eq. lia.
Qed.

(** ** Key derivation *)

Lemma block_offset (x : Z) :
  0 ≤ x < 256 → (Z.to_nat ((x ≫ 3) * 112) ≤ 3472)%nat.
Proof.
  intros Hx. rewrite Z.shiftr_div_pow2 by lia.
  change (2 ^ 3) with 8.
  assert (0 ≤ x / 8 ≤ 31).
  { split; [apply Z.div_pos; lia|]. apply Z.lt_succ_r, Z.div_lt_upper_bound; lia. }
  lia.
Qed.

Lemma is_bytes_lookup (b : bytes) (i : nat) :
  is_bytes b → (i < length b)%nat → 0 ≤ b !!! i < 256.
Proof.
  unfold is_bytes. rewrite Forall_lookup. intros Hb Hi.
  apply (Hb i). by apply list_lookup_lookup_total_lt.
Qed.

Section KeyDerivationFacts.

Variables CTRL_KEY_0 CTRL_KEY_1 : bytes.

Lemma get_rp_nonce_spec (nonce : bytes) :
  length nonce = 16%nat → is_bytes nonce → (3488 ≤ length CTRL_KEY_0)%nat →
  _get_rp_nonce CTRL_KEY_0 nonce = Ok (derive_session_nonce CTRL_KEY_0 nonce).
Proof.
  intros Hn Hb H0. unfold _get_rp_nonce.
  rewrite getitem_lt, bind_Ok by lia.
  pose proof (block_offset _ (is_bytes_lookup nonce 0 Hb ltac:(lia))) as Hblk.
  unfold RP_CRYPT_SIZE, bytearray.
  erewrite for_each_fill with (N := 16%nat);
    [reflexivity| |done|by rewrite length_replicate].
  intros acc i Hi Hacc. unfold rp_nonce_body.
  rewrite !getitem_lt, !bind_Ok by (rewrite ?length_drop; lia).
  by rewrite setitem_byte by lia.
Qed.

Lemma get_aes_key_spec (nonce rp_key : bytes) :
  length nonce = 16%nat → is_bytes nonce → length rp_key = 16%nat →
  (3488 ≤ length CTRL_KEY_1)%nat →
  _get_aes_key CTRL_KEY_1 nonce rp_key
  = Ok (derive_aes_key CTRL_KEY_1 nonce rp_key).
Proof.
  intros Hn Hb Hk H1. unfold _get_aes_key.
  rewrite getitem_lt, bind_Ok by lia.
  pose proof (block_offset _ (is_bytes_lookup nonce 7 Hb ltac:(lia))) as Hblk.
  unfold RP_CRYPT_SIZE, bytearray.
  erewrite for_each_fill with (N := 16%nat);
    [reflexivity| |done|by rewrite length_replicate].
  intros acc i Hi Hacc. unfold aes_key_body.
  rewrite !getitem_lt, !bind_Ok by (rewrite ?length_drop; lia).
  by rewrite setitem_byte by lia.
Qed.

(** C4. For a 16-byte server nonce and a 16-byte pairing key (and lookup
    tables that hold all 32 blocks), [_get_rp_nonce] returns the bytes
    [((nonce[i] + 54 + i) XOR block_A[i]) mod 256] and [_get_aes_key] the
    bytes [(((block_B[i] XOR key[i]) + 33 + i) XOR nonce[i]) mod 256], with
    the blocks at offset [(nonce[0] >> 3) * 112] of [CTRL_KEY_0] and
    [(nonce[7] >> 3) * 112] of [CTRL_KEY_1]; both results are 16 bytes. *)
Theorem key_derivation_matches_spec (nonce rp_key : bytes) :
  length nonce = 16%nat → is_bytes nonce → length rp_key = 16%nat →
  (3488 ≤ length CTRL_KEY_0)%nat → (3488 ≤ length CTRL_KEY_1)%nat →
  ∃ rp_nonce aes_key,
    _get_rp_nonce CTRL_KEY_0 nonce = Ok rp_nonce ∧
    _get_aes_key CTRL_KEY_1 nonce rp_key = Ok aes_key ∧
    length rp_nonce = 16%nat ∧ length aes_key = 16%nat ∧
    is_bytes rp_nonce ∧ is_bytes aes_key ∧
    ∀ i : nat, (i < 16)%nat →
      rp_nonce !! i
      = Some (Z.lxor (nonce !!! i + 54 + Z.of_nat i)
                (drop (Z.to_nat ((nonce !!! 0%nat ≫ 3) * 112)) CTRL_KEY_0 !!! i)
              `mod` 256) ∧
      aes_key !! i
      = Some (Z.lxor
                (Z.lxor
                   (drop (Z.to_nat ((nonce !!! 7%nat ≫ 3) * 112)) CTRL_KEY_1 !!! i)
                   (rp_key !!! i) + 33 + Z.of_nat i)
                (nonce !!! i)
              `mod` 256).
Proof.
  intros Hn Hb Hk H0 H1.
  exists (derive_session_nonce CTRL_KEY_0 nonce),
         (derive_aes_key CTRL_KEY_1 nonce rp_key).
  split; [by apply get_rp_nonce_spec|].
  split; [by apply get_aes_key_spec|].
  unfold derive_session_nonce, derive_aes_key.
  rewrite !length_fmap, !length_seq.
  split; [done|]. split; [done|].
  split; [|split].
  - apply Forall_fmap, Forall_forall. intros i _. simpl.
    apply Z.mod_pos_bound. lia.
  - apply Forall_fmap, Forall_forall. intros i _. simpl.
    apply Z.mod_pos_bound. lia.
  - intros i Hi. rewrite !list_lookup_fmap, !lookup_seq_lt by done.
    done.
Qed.

End KeyDerivationFacts.

Lemma sample_nonce_bytes : is_bytes sample_nonce.
Proof.
  unfold is_bytes, sample_nonce. apply Forall_fmap, Forall_forall.
  intros i Hi. apply elem_of_seq in Hi. simpl. lia.
Qed.

Lemma key_derivation_matches_spec_witness :
  ∃ rp_nonce aes_key,
    _get_rp_nonce sample_table sample_nonce = Ok rp_nonce ∧
    _get_aes_key sample_table sample_nonce sample_pairing_key = Ok aes_key ∧
    length rp_nonce = 16%nat ∧ length aes_key = 16%nat ∧
    is_bytes rp_nonce ∧ is_bytes aes_key ∧
    ∀ i : nat, (i < 16)%nat →
      rp_nonce !! i
      = Some (Z.lxor (sample_nonce !!! i + 54 + Z.of_nat i)
                (drop (Z.to_nat ((sample_nonce !!! 0%nat ≫ 3) * 112)) sample_table !!! i)
              `mod` 256) ∧
      aes_key !! i
      = Some (Z.lxor
                (Z.lxor
                   (drop (Z.to_nat ((sample_nonce !!! 7%nat ≫ 3) * 112)) sample_table !!! i)
                   (sample_pairing_key !!! i) + 33 + Z.of_nat i)
                (sample_nonce !!! i)
              `mod` 256).
Proof.
  apply (key_derivation_matches_spec sample_table sample_table
           sample_nonce sample_pairing_key).
  - reflexivity.
  - exact sample_nonce_bytes.
  - reflexivity.
  - apply Nat.leb_le. vm_compute. reflexivity.
  - apply Nat.leb_le. vm_compute. reflexivity.
Defined.

(** ** The cipher *)

Lemma xor_stream_length (ks : nat → Z) (pos : nat) (buf : bytes) :
  length (RPCipher.xor_stream ks pos buf) = length buf.
Proof. revert pos. induction buf as [|b buf IH]; intros pos; simpl; [done|]. by rewrite IH. Qed.

Lemma xor_stream_involutive (ks : nat → Z) (pos : nat) (buf : bytes) :
  RPCipher.xor_stream ks pos (RPCipher.xor_stream ks pos buf) = buf.
Proof.
  revert pos. induction buf as [|b buf IH]; intros pos; simpl; [done|].
  rewrite IH. f_equal.
  by rewrite Z.lxor_assoc, Z.lxor_nilpotent, Z.lxor_0_r.
Qed.

Lemma advance_0 (c : RPCipher.t) : RPCipher.advance c 0 = c.
Proof. destruct c. unfold RPCipher.advance. simpl. by rewrite Nat.add_0_r. Qed.

Lemma set_cipher_same (s : CTRL) (c : RPCipher.t) :
  _cipher s = Some c → set_cipher s (Some c) = s.
Proof. destruct s. simpl. by intros ->. Qed.

Lemma ready_inv (s : CTRL) :
  ready s = true →
  ∃ c k, _cipher s = Some c ∧ _sock s = Some k ∧ closed k = false.
Proof.
  unfold ready. destruct (_cipher s) as [c|]; [|done].
  destruct (_sock s) as [k|]; [|done].
  intros H. exists c, k. by destruct (closed k).
Qed.

(** ** Frames *)

Lemma pack_into_exact (payload : bytes) (msg_type : Z) :
  0 ≤ msg_type ≤ 0xFFFF → Z.of_nat (length payload) ≤ 0xFFFFFFFF →
  pack_into (length payload) (bytearray (HEADER_LENGTH + length payload))
    (Z.of_nat (length payload)) msg_type payload
  = Ok (header (Z.of_nat (length payload)) msg_type ++ payload).
Proof.
  intros Hty Hlen. unfold pack_into, pack, Bytes.in_range.
  replace (0 <=? Z.of_nat (length payload)) with true
    by (symmetry; apply Z.leb_le; lia).
  replace (Z.of_nat (length payload) <=? 0xFFFFFFFF) with true
    by (symmetry; apply Z.leb_le; lia).
  replace (0 <=? msg_type) with true by (symmetry; apply Z.leb_le; lia).
  replace (msg_type <=? 0xFFFF) with true by (symmetry; apply Z.leb_le; lia).
  cbn [andb negb]. rewrite bind_Ok, take_app_length.
  assert (Hsize : length (Bytes.to_be 4 (Z.of_nat (length payload))
                          ++ Bytes.to_be 2 msg_type ++ [0; 0] ++ payload)
                  = length (bytearray (HEADER_LENGTH + length payload))).
  { unfold bytearray, HEADER_LENGTH. rewrite length_replicate, !length_app.
    simpl. lia. }
  rewrite decide_True by lia.
  rewrite drop_ge by lia.
  unfold header. by rewrite app_nil_r, <- !app_assoc.
Qed.

Section SessionFacts.

Variable keystream : bytes → bytes → nat → Z.
Variable wall_clock : nat → float.

(** What [_build_msg] returns whenever its arguments fit the header: the
    header and the payload as given, and the cipher moved on. *)
Lemma build_msg_ok (s : CTRL) (c : RPCipher.t) (msg_type : Z) (payload : bytes) :
  _cipher s = Some c →
  0 ≤ msg_type ≤ 0xFFFF → Z.of_nat (length payload) ≤ 0xFFFFFFFF →
  _build_msg keystream s msg_type payload
  = Ok (header (Z.of_nat (length payload)) msg_type ++ payload,
        set_cipher s (Some (RPCipher.advance c (length payload)))).
Proof.
  intros Hc Hty Hlen. unfold _build_msg, cipher_encrypt. rewrite Hc.
  cbn [RPCipher.encrypt]. rewrite bind_Ok.
  by rewrite pack_into_exact, bind_Ok by done.
Qed.

Lemma sock_send_ok (s : CTRL) (k : socket) (msg : bytes) :
  _sock s = Some k → closed k = false →
  sock_send s msg
  = Ok (set_sock s (Some {| sent := sent k ++ [msg]; closed := false |})).
Proof. intros Hk Hcl. unfold sock_send. by rewrite Hk, Hcl. Qed.

Lemma send_hb_request_ok (s : CTRL) (c : RPCipher.t) (k : socket) :
  _cipher s = Some c → _sock s = Some k → closed k = false →
  _send_hb_request keystream s
  = Ok (set_sock s (Some {| sent := sent k ++ [header 0 0xfe]; closed := false |})).
Proof.
  intros Hc Hk Hcl. unfold _send_hb_request.
  rewrite (build_msg_ok s c) by (cbn; done || lia). rewrite bind_Ok.
  cbn [length]. rewrite advance_0, set_cipher_same by done.
  by rewrite (sock_send_ok _ k).
Qed.

Lemma send_standby_ok (s : CTRL) (c : RPCipher.t) (k : socket) :
  _cipher s = Some c → _sock s = Some k → closed k = false →
  _send_standby keystream s
  = Ok (set_sock s (Some {| sent := sent k ++ [header 0 0x50]; closed := false |})).
Proof.
  intros Hc Hk Hcl. unfold _send_standby.
  rewrite (build_msg_ok s c) by (cbn; done || lia). rewrite bind_Ok.
  cbn [length]. rewrite advance_0, set_cipher_same by done.
  by rewrite (sock_send_ok _ k).
Qed.

Lemma send_hb_response_ok (s : CTRL) (c : RPCipher.t) (k : socket) :
  _cipher s = Some c → _sock s = Some k → closed k = false →
  _send_hb_response keystream s
  = Ok (set_sock (set_cipher s (Some (RPCipher.advance c 8)))
          (Some {| sent := sent k ++ [header 8 0x1fe ++ HEARTBEAT_RESPONSE];
                   closed := false |})).
Proof.
  intros Hc Hk Hcl. unfold _send_hb_response.
  rewrite (build_msg_ok s c) by (cbn; done || lia). rewrite bind_Ok.
  by rewrite (sock_send_ok _ k).
Qed.

End SessionFacts.

Ltac eval_eqb :=
  repeat match goal with
  | |- context [MessageType.eqb ?a ?b] =>
      let v := eval vm_compute in (MessageType.eqb a b) in
      change (MessageType.eqb a b) with v
  end.

(** ** Message dispatch *)

Section HandleFacts.

Variable keystream : bytes → bytes → nat → Z.
Variable wall_clock : nat → float.

Lemma decode_ok (s : CTRL) (c : RPCipher.t) (data : bytes) (b : Z) :
  _cipher s = Some c → data !! 5%nat = Some b →
  decode keystream s data
  = Ok (b, (RPCipher.decrypt keystream c (drop 8 data)).1,
        set_cipher s (Some (RPCipher.advance c (length (drop 8 data))))).
Proof.
  intros Hc Hb. unfold decode, getitem. rewrite Hb.
  destruct (decide (drop 8 data = [])) as [Hnil|Hnil].
  - rewrite bool_decide_false by (intros H; by apply H).
    rewrite Hnil. cbn [length]. rewrite advance_0, set_cipher_same by done.
    reflexivity.
  - rewrite bool_decide_true by done.
    unfold cipher_decrypt. rewrite Hc. reflexivity.
Qed.

Lemma heartbeat_check_ok (s : CTRL) (c : RPCipher.t) (k : socket) :
  _cipher s = Some c → _sock s = Some k → closed k = false →
  heartbeat_check keystream wall_clock s
  = Ok (if (5 <? wall_clock (clock s) - _hb_last s)%float
        then set_sock (add_log (set_clock s (S (clock s))) LogHBTimeout)
               (Some {| sent := sent k ++ [header 0 0xfe]; closed := false |})
        else set_clock s (S (clock s))).
Proof.
  intros Hc Hk Hcl. unfold heartbeat_check, time_time.
  cbn [_hb_last set_clock].
  destruct ((5 <? wall_clock (clock s) - _hb_last s)%float); [|done].
  by rewrite (send_hb_request_ok _ _ c k).
Qed.

Lemma of_value_Some (b : Z) (m : MessageType.t) :
  MessageType.of_value b = Some m → b = MessageType.value m.
Proof.
  unfold MessageType.of_value. intros H.
  apply List.find_some in H as [_ H]. symmetry. by apply Z.eqb_eq.
Qed.


Lemma heartbeat_check_obs (s : CTRL) :
  ready s = true →
  ∃ s', heartbeat_check keystream wall_clock s = Ok s' ∧
    ready s' = true ∧
    _session_id s' = _session_id s ∧
    _send_buf s' = _send_buf s ∧
    _hb_last s' = _hb_last s ∧
    clock s' = S (clock s) ∧
    sock_sent s'
    = sock_sent s
      ++ (if (5 <? wall_clock (pred (clock s')) - _hb_last s')%float
          then [header 0 0xfe] else []).
Proof.
  intros Hready. destruct (ready_inv s Hready) as (c & k & Hc & Hk & Hcl).
  rewrite (heartbeat_check_ok s c k) by done.
  eexists. split; [reflexivity|].
  unfold sock_sent, ready.
  destruct ((5 <? wall_clock (clock s) - _hb_last s)%float) eqn:E;
    cbn; rewrite ?Hc, ?Hk, ?Hcl, ?E, ?app_nil_r; done.
Qed.

(** A message of a known type, handled on a ready session: the dispatch
    returns, and this is what it leaves behind. The only way out before
    the staleness check is a SESSION_ID whose payload does not decode. *)
Lemma handle_known_obs
    (s : CTRL) (c : RPCipher.t) (data : bytes) (b : Z) (ty : MessageType.t) :
  ready s = true → _cipher s = Some c →
  data !! 5%nat = Some b → MessageType.of_value b = Some ty →
  (ty = MessageType.SESSION_ID →
   Bytes.utf8_valid (drop 2 (RPCipher.decrypt keystream c (drop 8 data)).1) = true) →
  ∃ s', _handle keystream wall_clock s data = Ok s' ∧
    ready s' = true ∧
    _session_id s'
    = (if MessageType.eqb ty MessageType.SESSION_ID
       then drop 2 (RPCipher.decrypt keystream c (drop 8 data)).1
       else _session_id s) ∧
    _send_buf s' = _send_buf s ∧
    _hb_last s' = (if records_heartbeat ty then wall_clock (clock s) else _hb_last s) ∧
    clock s' = (if records_heartbeat ty then S (S (clock s)) else S (clock s)) ∧
    sock_sent s'
    = sock_sent s
      ++ (if MessageType.eqb ty MessageType.HEARTBEAT_REQUEST
          then [header 8 0x1fe ++ HEARTBEAT_RESPONSE] else [])
      ++ (if (5 <? wall_clock (pred (clock s')) - _hb_last s')%float
          then [header 0 0xfe] else []).
Proof.
  intros Hready Hc Hb Hty Hvalid.
  destruct (ready_inv s Hready) as (c' & k & Hc' & Hk & Hcl).
  rewrite Hc in Hc'. injection Hc' as <-.
  unfold _handle. rewrite (decode_ok s c data b), bind_Ok by done.
  cbn beta iota. rewrite Hty.
  set (s1 := set_cipher s (Some (RPCipher.advance c (length (drop 8 data))))).
  assert (Hr1 : ready s1 = true) by (unfold ready; cbn; by rewrite Hk, Hcl).
  destruct ty; unfold records_heartbeat; eval_eqb; cbn [orb];
    rewrite ?bind_Ok.
  all: try (destruct (heartbeat_check_obs s1 Hr1)
      as (s' & -> & Hr & Hid & Hq & Hh & Hclk & Hs);
    exists s'; rewrite Hs, Hid, Hq, Hh, Hclk; done).
  - (* SESSION_ID *)
    rewrite Hvalid by done.
    match goal with |- context [heartbeat_check _ _ ?x] => set (s2 := x) end.
    assert (Hr2 : ready s2 = true ∧ _send_buf s2 = _send_buf s
                  ∧ _hb_last s2 = _hb_last s ∧ clock s2 = clock s
                  ∧ sock_sent s2 = sock_sent s
                  ∧ _session_id s2
                    = drop 2 (RPCipher.decrypt keystream c (drop 8 data)).1).
    { subst s2. unfold start_stream, sock_sent, ready.
      destruct (_cb_start _); [|case_bool_decide]; cbn; by rewrite Hk, Hcl. }
    destruct Hr2 as (Hr2 & Hq2 & Hh2 & Hc2 & Hs2 & Hid2).
    destruct (heartbeat_check_obs s2 Hr2)
      as (s' & -> & Hr & Hid & Hq & Hh & Hclk & Hs).
    exists s'. by rewrite Hs, Hid, Hq, Hh, Hclk, Hq2, Hh2, Hc2, Hs2, Hid2.
  - (* HEARTBEAT_REQUEST *)
    unfold time_time. cbn beta iota.
    erewrite send_hb_response_ok by (cbn; done). rewrite bind_Ok.
    match goal with |- context [heartbeat_check _ _ ?x] => set (s2 := x) end.
    assert (Hr2 : ready s2 = true) by done.
    destruct (heartbeat_check_obs s2 Hr2)
      as (s' & -> & Hr & Hid & Hq & Hh & Hclk & Hs).
    exists s'. rewrite Hs, Hid, Hq, Hh, Hclk.
    unfold sock_sent. cbn. rewrite Hk. by rewrite <- app_assoc.
  - (* HEARTBEAT_RESPONSE *)
    unfold time_time. cbn beta iota.
    match goal with |- context [heartbeat_check _ _ ?x] => set (s2 := x) end.
    assert (Hr2 : ready s2 = true) by done.
    destruct (heartbeat_check_obs s2 Hr2)
      as (s' & -> & Hr & Hid & Hq & Hh & Hclk & Hs).
    exists s'. by rewrite Hs, Hid, Hq, Hh, Hclk.
Qed.

(** A frame whose byte 5 is no member of [MessageType]: the payload is
    decrypted, the byte is logged, and the dispatch returns. *)
Lemma handle_unknown (s : CTRL) (c : RPCipher.t) (data : bytes) (b : Z) :
  _cipher s = Some c → data !! 5%nat = Some b →
  MessageType.of_value b = None →
  _handle keystream wall_clock s data
  = Ok (add_log (set_cipher s (Some (RPCipher.advance c (length (drop 8 data)))))
          (LogInvalidMessageType b)).
Proof.
  intros Hc Hb Hty. unfold _handle.
  rewrite (decode_ok s c data b), bind_Ok by done.
  cbn beta iota. by rewrite Hty.
Qed.

Lemma handle_malformed (s : CTRL) (c : RPCipher.t) (data : bytes) :
  _cipher s = Some c →
  data !! 5%nat = Some (MessageType.value MessageType.SESSION_ID) →
  Bytes.utf8_valid (drop 2 (RPCipher.decrypt keystream c (drop 8 data)).1) = false →
  _handle keystream wall_clock s data
  = Ok (add_log (set_cipher s (Some (RPCipher.advance c (length (drop 8 data)))))
          LogMalformedSessionId).
Proof.
  intros Hc Hb Hbad. unfold _handle.
  rewrite (decode_ok s c data _), bind_Ok by done.
  cbn beta iota.
  change (MessageType.of_value (MessageType.value MessageType.SESSION_ID))
    with (Some MessageType.SESSION_ID).
  cbn beta iota. eval_eqb. cbn beta iota. rewrite bind_Ok. cbn beta iota.
  by rewrite Hbad.
Qed.

Lemma bind_inv {A B : Type} (m : result A) (f : A → result B) (b : B) :
  m ≫= f = Ok b → ∃ a, m = Ok a ∧ f a = Ok b.
Proof. destruct m as [a|e]; [|done]. intros H. by exists a. Qed.

(** *** What the dispatch can change

    A property of the session that survives a write to the cipher, the
    socket, the clock and the log survives every helper. *)

Section Footprint.

Variable P : CTRL → Prop.
Hypothesis P_cipher : ∀ s v, P s → P (set_cipher s v).
Hypothesis P_sock : ∀ s v, P s → P (set_sock s v).
Hypothesis P_clock : ∀ s v, P s → P (set_clock s v).
Hypothesis P_log : ∀ s v, P s → P (set_log s v).

Lemma cipher_encrypt_keeps (s s' : CTRL) (buf out : bytes) :
  P s → cipher_encrypt keystream s buf = Ok (out, s') → P s'.
Proof.
  intros HP. unfold cipher_encrypt. destruct (_cipher s); [|done].
  cbn. intros [= _ <-]. by apply P_cipher.
Qed.

Lemma cipher_decrypt_keeps (s s' : CTRL) (buf out : bytes) :
  P s → cipher_decrypt keystream s buf = Ok (out, s') → P s'.
Proof.
  intros HP. unfold cipher_decrypt. destruct (_cipher s); [|done].
  cbn. intros [= _ <-]. by apply P_cipher.
Qed.

Lemma sock_send_keeps (s s' : CTRL) (msg : bytes) :
  P s → sock_send s msg = Ok s' → P s'.
Proof.
  intros HP. unfold sock_send. destruct (_sock s) as [k|]; [|done].
  destruct (closed k); [done|]. intros [= <-]. by apply P_sock.
Qed.

Lemma build_msg_keeps (s s' : CTRL) (msg_type : Z) (payload msg : bytes) :
  P s → _build_msg keystream s msg_type payload = Ok (msg, s') → P s'.
Proof.
  intros HP. unfold _build_msg. intros H.
  apply bind_inv in H as ([out s1] & Henc & H).
  apply bind_inv in H as (buf & _ & [= _ <-]).
  by eapply cipher_encrypt_keeps.
Qed.

Lemma send_hb_response_keeps (s s' : CTRL) :
  P s → _send_hb_response keystream s = Ok s' → P s'.
Proof.
  intros HP. unfold _send_hb_response. intros H.
  apply bind_inv in H as ([msg s1] & Hb & H).
  eapply sock_send_keeps; [|exact H]. by eapply build_msg_keeps.
Qed.

Lemma send_hb_request_keeps (s s' : CTRL) :
  P s → _send_hb_request keystream s = Ok s' → P s'.
Proof.
  intros HP. unfold _send_hb_request. intros H.
  apply bind_inv in H as ([msg s1] & Hb & H).
  eapply sock_send_keeps; [|exact H]. by eapply build_msg_keeps.
Qed.

Lemma heartbeat_check_keeps (s s' : CTRL) :
  P s → heartbeat_check keystream wall_clock s = Ok s' → P s'.
Proof.
  intros HP. unfold heartbeat_check, time_time. cbn beta iota.
  destruct (_ <? _)%float.
  - apply send_hb_request_keeps. by apply P_log, P_clock.
  - intros [= <-]. by apply P_clock.
Qed.

Lemma decode_keeps (s s' : CTRL) (data payload : bytes) (b : Z) :
  P s → decode keystream s data = Ok (b, payload, s') → P s'.
Proof.
  intros HP. unfold decode. intros H.
  apply bind_inv in H as ([payload' s1] & Hd & H).
  apply bind_inv in H as (b' & _ & [= _ _ <-]).
  case_bool_decide.
  - by eapply cipher_decrypt_keeps.
  - by injection Hd as _ <-.
Qed.

End Footprint.

(** The dispatch itself: [P] survives it unless a session id was
    captured, in which case [Q id] holds of the result for the captured
    [id]. *)

Section HandleFootprint.

Variable P : CTRL → Prop.
Variable Q : bytes → CTRL → Prop.
Hypothesis P_cipher : ∀ s v, P s → P (set_cipher s v).
Hypothesis P_sock : ∀ s v, P s → P (set_sock s v).
Hypothesis P_clock : ∀ s v, P s → P (set_clock s v).
Hypothesis P_log : ∀ s v, P s → P (set_log s v).
Hypothesis P_hb_last : ∀ s v, P s → P (set_hb_last s v).
Hypothesis Q_cipher : ∀ id s v, Q id s → Q id (set_cipher s v).
Hypothesis Q_sock : ∀ id s v, Q id s → Q id (set_sock s v).
Hypothesis Q_clock : ∀ id s v, Q id s → Q id (set_clock s v).
Hypothesis Q_log : ∀ id s v, Q id s → Q id (set_log s v).
Hypothesis Q_events : ∀ id s v, Q id s → Q id (set_events s v).
Hypothesis Q_stream : ∀ id s v, Q id s → Q id (set_stream s v).
Hypothesis Q_session_id : ∀ id s, P s → Q id (set_session_id s id).

Lemma handle_keeps (s s' : CTRL) (data : bytes) :
  P s → _handle keystream wall_clock s data = Ok s' →
  P s' ∨
  ∃ payload s1,
    decode keystream s data
    = Ok (MessageType.value MessageType.SESSION_ID, payload, s1) ∧
    Bytes.utf8_valid (drop 2 payload) = true ∧
    Q (drop 2 payload) s'.
Proof.
  intros HP. unfold _handle. intros H.
  apply bind_inv in H as ([[b payload] s1] & Hd & H).
  assert (HP1 : P s1) by (by eapply decode_keeps).
  destruct (MessageType.of_value b) as [ty|] eqn:Hty.
  2:{ left. injection H as <-. by apply P_log. }
  apply of_value_Some in Hty. subst b.
  apply bind_inv in H as (s2 & H2 & H).
  destruct ty; revert H2 H; eval_eqb; intros H2 H.
  all: try (injection H2 as <-; left;
            by apply (heartbeat_check_keeps P P_cipher P_sock P_clock P_log _ _ HP1 H)).
  - (* SESSION_ID *)
    injection H2 as <-.
    destruct (Bytes.utf8_valid (drop 2 payload)) eqn:Hvalid.
    + right. exists payload, s1. split; [done|]. split; [done|].
      refine (heartbeat_check_keeps _ (Q_cipher _) (Q_sock _) (Q_clock _)
                (Q_log _) _ _ _ H).
      unfold start_stream, add_event, add_log.
      destruct (_cb_start _); [|case_bool_decide]; eauto.
    + left. injection H as <-. by apply P_log.
  - (* HEARTBEAT_REQUEST *)
    left. unfold time_time in H2. cbn beta iota in H2.
    refine (heartbeat_check_keeps P P_cipher P_sock P_clock P_log _ _ _ H).
    refine (send_hb_response_keeps P P_cipher P_sock _ _ _ H2).
    by apply P_hb_last, P_clock.
  - (* HEARTBEAT_RESPONSE *)
    injection H2 as <-. left. unfold time_time in H. cbn beta iota in H.
    refine (heartbeat_check_keeps P P_cipher P_sock P_clock P_log _ _ _ H).
    by apply P_hb_last, P_clock.
Qed.

End HandleFootprint.

Lemma handle_send_buf (s s' : CTRL) (data : bytes) :
  _handle keystream wall_clock s data = Ok s' → _send_buf s' = _send_buf s.
Proof.
  intros H.
  destruct (handle_keeps (λ x, _send_buf x = _send_buf s)
              (λ _ x, _send_buf x = _send_buf s))
    with (s := s) (s' := s') (data := data)
    as [Hs|(? & ? & _ & _ & Hs)]; done.
Qed.

Lemma decode_byte_5 (s s1 : CTRL) (data payload : bytes) (b : Z) :
  decode keystream s data = Ok (b, payload, s1) → data !! 5%nat = Some b.
Proof.
  unfold decode. intros H.
  apply bind_inv in H as ([payload' s'] & _ & H).
  apply bind_inv in H as (b' & Hb & [= -> _ _]).
  unfold getitem in Hb. destruct (data !! 5%nat); [|done]. by injection Hb as ->.
Qed.


(** ** The claims on the dispatch *)


(** C9. A SESSION_ID frame whose payload, after the 2-byte prefix, is not
    valid text: the dispatch returns normally, having consumed the
    keystream for the payload and logged a warning; the session identity,
    the socket (nothing sent, not closed), the send queue, the stop event,
    the state and the collaborators are as before. *)
Theorem malformed_session_id_dropped (s : CTRL) (c : RPCipher.t) (data : bytes) :
  _cipher s = Some c →
  data !! 5%nat = Some (MessageType.value MessageType.SESSION_ID) →
  Bytes.utf8_valid (drop 2 (RPCipher.decrypt keystream c (drop 8 data)).1) = false →
  ∃ s', _handle keystream wall_clock s data = Ok s' ∧
    _session_id s' = _session_id s ∧
    _sock s' = _sock s ∧
    _send_buf s' = _send_buf s ∧
    _stop_event s' = _stop_event s ∧
    _state s' = _state s ∧
    _stream s' = _stream s ∧
    events s' = events s ∧
    _cipher s' = Some (RPCipher.advance c (length (drop 8 data))) ∧
    log s' = log s ++ [LogMalformedSessionId].
Proof.
  intros Hc Hb Hbad. eexists. split; [by apply (handle_malformed s c)|].
  by cbn.
Qed.

(** C5, as amended. The session identity is empty at session start; every
    SESSION_ID frame whose payload decodes stores the bytes after the
    2-byte prefix as the identity, whether or not one was set before; and
    nothing else changes it: after any dispatch the identity is the one
    before, or the dispatched frame was a decodable SESSION_ID and the
    identity is its payload. *)
Theorem session_id_set_by_every_valid_frame :
  (∀ cb_start, _session_id (__init__ cb_start) = []) ∧
  (∀ s c data,
     ready s = true → _cipher s = Some c →
     data !! 5%nat = Some (MessageType.value MessageType.SESSION_ID) →
     Bytes.utf8_valid (drop 2 (RPCipher.decrypt keystream c (drop 8 data)).1) = true →
     ∃ s', _handle keystream wall_clock s data = Ok s' ∧
       _session_id s' = drop 2 (RPCipher.decrypt keystream c (drop 8 data)).1) ∧
  (∀ s c data s',
     _cipher s = Some c → _handle keystream wall_clock s data = Ok s' →
     _session_id s' = _session_id s ∨
     (data !! 5%nat = Some (MessageType.value MessageType.SESSION_ID) ∧
      Bytes.utf8_valid (drop 2 (RPCipher.decrypt keystream c (drop 8 data)).1) = true ∧
      _session_id s' = drop 2 (RPCipher.decrypt keystream c (drop 8 data)).1)).
Proof.
  split; [done|]. split.
  - intros s c data Hready Hc Hb Hvalid.
    destruct (handle_known_obs s c data _ MessageType.SESSION_ID Hready Hc Hb)
      as (s' & H & _ & Hid & _); [done|done|].
    by exists s'.
  - intros s c data s' Hc H.
    destruct (handle_keeps (λ x, _session_id x = _session_id s)
                (λ id x, _session_id x = id))
      with (s := s) (s' := s') (data := data)
      as [Hs|(payload & s1 & Hd & Hvalid & Hs)]; try done.
    { by left. }
    right. pose proof (decode_byte_5 _ _ _ _ _ Hd) as Hb.
    rewrite (decode_ok s c data _ Hc Hb) in Hd. injection Hd as <- _.
    done.
Qed.

(** C3, as amended. The three outbound helpers write the frame they build
    straight to the socket and leave the send queue as it is; the dispatch
    never changes the queue either; [send] writes the oldest queued buffer
    to the socket, if there is one. *)
Theorem outbound_frames_written_directly (s : CTRL) :
  ready s = true →
  (∃ s', _send_hb_response keystream s = Ok s' ∧
     _send_buf s' = _send_buf s ∧
     sock_sent s' = sock_sent s ++ [header 8 0x1fe ++ HEARTBEAT_RESPONSE]) ∧
  (∃ s', _send_hb_request keystream s = Ok s' ∧
     _send_buf s' = _send_buf s ∧
     sock_sent s' = sock_sent s ++ [header 0 0xfe]) ∧
  (∃ s', _send_standby keystream s = Ok s' ∧
     _send_buf s' = _send_buf s ∧
     sock_sent s' = sock_sent s ++ [header 0 0x50]) ∧
  (∀ data s',
     _handle keystream wall_clock s data = Ok s' → _send_buf s' = _send_buf s) ∧
  (∃ s', send s = Ok s' ∧
     _send_buf s' = tail (_send_buf s) ∧
     sock_sent s' = sock_sent s ++ take 1 (_send_buf s)).
Proof.
  intros Hready. destruct (ready_inv s Hready) as (c & k & Hc & Hk & Hcl).
  unfold sock_sent. rewrite Hk.
  split; [|split; [|split; [|split]]].
  - rewrite (send_hb_response_ok _ s c k) by done. by eexists.
  - rewrite (send_hb_request_ok _ s c k) by done. by eexists.
  - rewrite (send_standby_ok _ s c k) by done. by eexists.
  - intros data s'. apply handle_send_buf.
  - unfold send. destruct (_send_buf s) as [|f rest] eqn:Hq.
    + exists s. rewrite Hq, Hk. by rewrite app_nil_r.
    + rewrite (sock_send_ok _ k) by done. by eexists.
Qed.

End HandleFacts.

(** ** Examples and instances *)

(** C1. [_build_msg] on the heartbeat echo, the frame the session sends
    most: the header is the one of the specification and the cipher moves
    on by the 8 bytes of the payload, but the 8 bytes after the header are
    the payload in clear, not its encryption under the session cipher. *)
Theorem build_msg_payload_in_clear :
  _build_msg sample_keystream sample_session
    (MessageType.value MessageType.HEARTBEAT_RESPONSE) HEARTBEAT_RESPONSE
  = Ok ([0; 0; 0; 8; 0x01; 0xfe; 0; 0] ++ HEARTBEAT_RESPONSE,
        set_cipher sample_session (Some (RPCipher.advance sample_cipher 8))) ∧
  frame sample_keystream sample_cipher
    (MessageType.value MessageType.HEARTBEAT_RESPONSE) HEARTBEAT_RESPONSE
  = [0; 0; 0; 8; 0x01; 0xfe; 0; 0] ++ [11; 48; 85; 122; 158; 58; 233; 14] ∧
  (RPCipher.encrypt sample_keystream sample_cipher HEARTBEAT_RESPONSE).1
  ≠ HEARTBEAT_RESPONSE.
Proof. split; [|split]; by vm_compute. Qed.

(** C2. Encoding then decoding with a matching cipher state does not give
    the message back. The decoder looks up byte 5 only, the low byte of
    the type: HEARTBEAT_RESPONSE (0x1fe) comes back as HEARTBEAT_REQUEST
    and LOGIN_PIN_RESPONSE (0x8004) as LOGIN_PIN_REQUEST, even with an
    empty payload. And since the encoder leaves the payload in clear while
    the decoder decrypts it, a non-empty payload comes back XORed with the
    keystream, also for a one-byte type. *)
Theorem round_trip_loses_type_and_payload :
  let round_trip (msg_type : MessageType.t) (payload : bytes) :=
    '(msg, _) ← _build_msg sample_keystream sample_session
                  (MessageType.value msg_type) payload;
    '(b, payload', _) ← decode sample_keystream sample_session msg;
    Ok (MessageType.of_value b, payload') in
  round_trip MessageType.HEARTBEAT_RESPONSE HEARTBEAT_RESPONSE
  = Ok (Some MessageType.HEARTBEAT_REQUEST, [11; 48; 85; 122; 158; 58; 233; 14]) ∧
  round_trip MessageType.HEARTBEAT_RESPONSE []
  = Ok (Some MessageType.HEARTBEAT_REQUEST, []) ∧
  round_trip MessageType.LOGIN_PIN_RESPONSE []
  = Ok (Some MessageType.LOGIN_PIN_REQUEST, []) ∧
  round_trip MessageType.SESSION_ID [0; 0; 65]
  = Ok (Some MessageType.SESSION_ID, [11; 48; 20]).
Proof. repeat split; by vm_compute. Qed.

(** C6. A frame whose message type, 0x0133, is outside the enumeration
    is not reported and not discarded: its byte 5 is 0x33, so it is
    handled as a SESSION_ID, which sets the identity and starts the
    stream bootstrap; no warning is logged. *)
Theorem unlisted_type_handled_as_session_id :
  MessageType.of_value 0x0133 = None ∧
  unlisted_type_frame = [0; 0; 0; 3; 0x01; 0x33; 0; 0; 11; 48; 20] ∧
  (s' ← _handle sample_keystream (clock_at 0) sample_session unlisted_type_frame;
   Ok (_session_id s', events s', log s'))
  = Ok ([65], [StreamConnect true], []).
Proof. repeat split; by vm_compute. Qed.

(** C8. A non-200 init response whose reason, 0x80108b03, is not a member
    of [CTRL.Error]: the enum lookup raises, and the [ValueError] leaves
    [_parse_init], [connect] and [start]; there is no classification as
    unknown and no [False] result. With a listed reason and a nonce header
    in the response, [connect] logs the reason and goes on to the auth
    phase. *)
Theorem unlisted_reason_raises
    (b64decode : string → result bytes)
    (auth_phase : CTRL → bytes → result (bool * CTRL)) (s : CTRL) :
  Error.of_value 0x80108b03 = None ∧
  _parse_init b64decode s rejected_response = Raise ValueError ∧
  connect b64decode auth_phase s rejected_response = Raise ValueError ∧
  start b64decode auth_phase s true rejected_response = Raise ValueError ∧
  connect b64decode auth_phase s rejected_response_with_nonce
  = (nonce ← b64decode "AAECAwQFBgcICQoLDA0ODw==";
     auth_phase (add_log s (LogInitFailed "REGIST_FAILED")) nonce).
Proof.
  assert (H : _parse_init b64decode s rejected_response = Raise ValueError)
    by reflexivity.
  split; [reflexivity|]. split; [exact H|].
  unfold start, connect. rewrite H. split; [reflexivity|].
  split; [reflexivity|].
  unfold _parse_init.
  change (headers_get rejected_response_with_nonce "RP-Application-Reason")
    with (Some "80108b09"%string).
  change (headers_get rejected_response_with_nonce "RP-Nonce")
    with (Some "AAECAwQFBgcICQoLDA0ODw=="%string).
  cbn. by destruct (b64decode _).
Qed.


(** The payload [00 00 FF FE] of the specification. *)
Lemma malformed_session_id_dropped_witness :
  ∃ s', _handle sample_keystream (clock_at 30) sample_session
          malformed_session_id_frame = Ok s' ∧
    _session_id s' = _session_id sample_session ∧
    _sock s' = _sock sample_session ∧
    _send_buf s' = _send_buf sample_session ∧
    _stop_event s' = _stop_event sample_session ∧
    _state s' = _state sample_session ∧
    _stream s' = _stream sample_session ∧
    events s' = events sample_session ∧
    _cipher s'
    = Some (RPCipher.advance sample_cipher
              (length (drop 8 malformed_session_id_frame))) ∧
    log s' = log sample_session ++ [LogMalformedSessionId].
Proof.
  apply (malformed_session_id_dropped sample_keystream (clock_at 30)
           sample_session sample_cipher malformed_session_id_frame).
  - reflexivity.
  - reflexivity.
  - vm_compute. reflexivity.
Defined.

(** The frame [00 00 "ABC123"] of the specification. *)
Lemma session_id_set_by_every_valid_frame_witness :
  ∃ s', _handle sample_keystream (clock_at 0) sample_session
          (session_id_frame id_ABC123) = Ok s' ∧
    _session_id s' = id_ABC123.
Proof.
  destruct (session_id_set_by_every_valid_frame sample_keystream (clock_at 0))
    as (_ & H & _).
  destruct (H sample_session sample_cipher (session_id_frame id_ABC123))
    as (s' & Hs & Hid).
  - reflexivity.
  - reflexivity.
  - reflexivity.
  - vm_compute. reflexivity.
  - exists s'. split; [exact Hs|]. rewrite Hid. vm_compute. reflexivity.
Defined.

Lemma outbound_frames_written_directly_witness :
  (∃ s', _send_hb_response sample_keystream sample_session = Ok s' ∧
     _send_buf s' = _send_buf sample_session ∧
     sock_sent s' = sock_sent sample_session ++ [header 8 0x1fe ++ HEARTBEAT_RESPONSE]) ∧
  (∃ s', _send_hb_request sample_keystream sample_session = Ok s' ∧
     _send_buf s' = _send_buf sample_session ∧
     sock_sent s' = sock_sent sample_session ++ [header 0 0xfe]) ∧
  (∃ s', _send_standby sample_keystream sample_session = Ok s' ∧
     _send_buf s' = _send_buf sample_session ∧
     sock_sent s' = sock_sent sample_session ++ [header 0 0x50]) ∧
  (∀ data s',
     _handle sample_keystream (clock_at 0) sample_session data = Ok s' →
     _send_buf s' = _send_buf sample_session) ∧
  (∃ s', send sample_session = Ok s' ∧
     _send_buf s' = tail (_send_buf sample_session) ∧
     sock_sent s' = sock_sent sample_session ++ take 1 (_send_buf sample_session)).
Proof.
  apply (outbound_frames_written_directly sample_keystream (clock_at 0)
           sample_session).
  reflexivity.
Defined.

(** C3: a heartbeat request goes to the socket, not to the queue. *)
Lemma heartbeat_request_bypasses_queue :
  (s' ← _send_hb_request sample_keystream sample_session;
   Ok (_send_buf s', sock_sent s'))
  = Ok ([], [[0; 0; 0; 0; 0; 0xfe; 0; 0]]).
Proof. by vm_compute. Qed.

(** C5: a second SESSION_ID frame replaces the identity set by the
    first. *)
Lemma second_session_id_replaces_first :
  (s1 ← _handle sample_keystream (clock_at 0) sample_session
          (session_id_frame id_ABC123);
   s2 ← _handle sample_keystream (clock_at 0) s1
          (second_session_id_frame id_XYZ789);
   Ok (_session_id s1, _session_id s2))
  = Ok (id_ABC123, id_XYZ789).
Proof. by vm_compute. Qed.


(** The staleness test is the one of the doubles. A HEARTBEAT_REQUEST
    frame is handled with the clock reading 0.7 when the heartbeat is
    recorded and 5.7 at the check: the two doubles differ by more than 5
    as real numbers, but their difference as a double is 5, which is not
    greater than 5, and only the echo is written. With 5.8125 at the
    check the corrective request follows the echo. *)
Remark staleness_is_computed_in_doubles :
  (t_5_7 - t_0_7 =? 5)%float = true ∧
  (s' ← _handle sample_keystream (clock_readings t_0_7 t_5_7) sample_session
          (heartbeat_request_frame 0);
   Ok (_hb_last s', sock_sent s'))
  = Ok (t_0_7, [header 8 0x1fe ++ HEARTBEAT_RESPONSE]) ∧
  (s' ← _handle sample_keystream (clock_readings t_0_7 5.8125) sample_session
          (heartbeat_request_frame 0);
   Ok (_hb_last s', sock_sent s'))
  = Ok (t_0_7, [header 8 0x1fe ++ HEARTBEAT_RESPONSE; header 0 0xfe]).
Proof. repeat split; by vm_compute. Qed.

(** ** What holds of well-formed traffic *)

Section PeerFrames.

Variable keystream : bytes → bytes → nat → Z.
Variable wall_clock : nat → float.

(** A frame built as the specification says, with a one-byte type, is
    decoded to its type and its plaintext by a session whose cipher is
    where the sender's was. *)
Lemma decode_frame (s : CTRL) (c : RPCipher.t) (msg_type : Z) (payload : bytes) :
  _cipher s = Some c → 0 ≤ msg_type < 256 →
  decode keystream s (frame keystream c msg_type payload)
  = Ok (msg_type, payload,
        set_cipher s (Some (RPCipher.advance c (length payload)))).
Proof.
  intros Hc Hty.
  assert (H5 : frame keystream c msg_type payload !! 5%nat = Some msg_type).
  { unfold frame, header. cbn.
    f_equal. change 255 with (Z.ones 8). rewrite Z.land_ones by lia.
    rewrite Z.shiftr_0_r. apply Z.mod_small. lia. }
  rewrite (decode_ok keystream s c _ msg_type Hc H5).
  unfold frame, header. cbn.
  by rewrite !drop_0, xor_stream_involutive, xor_stream_length.
Qed.

(** Keystream alignment: once a frame whose byte 5 is no known type has
    been dropped, the next frame of the peer is decoded to its
    plaintext. *)
Lemma unknown_byte_keeps_alignment
    (s : CTRL) (c : RPCipher.t) (b msg_type : Z) (junk payload : bytes) :
  _cipher s = Some c → 0 ≤ b < 256 → MessageType.of_value b = None →
  0 ≤ msg_type < 256 →
  ∃ s1,
    _handle keystream wall_clock s (frame keystream c b junk) = Ok s1 ∧
    s1 = add_log (set_cipher s (Some (RPCipher.advance c (length junk))))
           (LogInvalidMessageType b) ∧
    decode keystream s1
      (frame keystream (RPCipher.advance c (length junk)) msg_type payload)
    = Ok (msg_type, payload,
          set_cipher s1
            (Some (RPCipher.advance (RPCipher.advance c (length junk))
                     (length payload)))).
Proof.
  intros Hc Hb Hty Hm. eexists. split; [|split; [reflexivity|]].
  - unfold _handle. rewrite (decode_frame s c b junk Hc Hb), bind_Ok.
    cbn beta iota. by rewrite Hty.
  - by apply decode_frame.
Qed.

(** On a buffer of bytes the lookup of byte 5 never yields one of the two
    members whose value needs two bytes. *)
Remark two_byte_types_unreachable (b : Z) (m : MessageType.t) :
  0 ≤ b < 256 → MessageType.of_value b = Some m →
  m ≠ MessageType.HEARTBEAT_RESPONSE ∧ m ≠ MessageType.LOGIN_PIN_RESPONSE.
Proof.
  intros Hb Hm. apply of_value_Some in Hm. subst b.
  split; intros ->; cbn in Hb; lia.
Qed.

(** The thread started by [CTRL.start] ends with a [TypeError] before it
    reads anything. *)
Remark worker_raises (reads : list (option bytes)) (s : CTRL) :
  worker keystream wall_clock reads s = Raise TypeError.
Proof. reflexivity. Qed.

End PeerFrames.

(** * Further properties *)

(** ** Integers and bytes *)

Lemma from_be_foldl (acc : Z) (b : bytes) :
  foldl (λ a x, a * 256 + x) acc b
  = acc * 256 ^ Z.of_nat (length b) + Bytes.from_be b.
Proof.
  unfold Bytes.from_be. revert acc.
  induction b as [|x b IH]; intros acc; cbn [foldl length].
  - change (256 ^ Z.of_nat 0) with 1. lia.
  - rewrite IH, (IH (0 * 256 + x)).
    rewrite Nat2Z.inj_succ, Z.pow_succ_r by lia. lia.
Qed.

Lemma from_be_cons (x : Z) (b : bytes) :
  Bytes.from_be (x :: b) = x * 256 ^ Z.of_nat (length b) + Bytes.from_be b.
Proof.
  unfold Bytes.from_be at 1. cbn [foldl]. rewrite from_be_foldl. lia.
Qed.

Lemma from_be_bound (b : bytes) :
  is_bytes b → 0 ≤ Bytes.from_be b < 256 ^ Z.of_nat (length b).
Proof.
  induction 1 as [|x b Hx Hb IH].
  - cbn. lia.
  - rewrite from_be_cons. cbn [length].
    rewrite Nat2Z.inj_succ, Z.pow_succ_r by lia. nia.
Qed.

Lemma to_be_length (w : nat) (n : Z) : length (Bytes.to_be w n) = w.
Proof. induction w as [|w IH]; cbn; [done|]. by rewrite IH. Qed.

Lemma byte_of_land (n : Z) : Z.land n 255 = n `mod` 256.
Proof. change 255 with (Z.ones 8). by rewrite Z.land_ones by lia. Qed.

Lemma to_be_bytes (w : nat) (n : Z) : is_bytes (Bytes.to_be w n).
Proof.
  induction w as [|w IH]; cbn [Bytes.to_be]; constructor; [|done].
  rewrite byte_of_land. apply Z.mod_pos_bound. lia.
Qed.

Lemma shiftr_bytes (n : Z) (w : nat) :
  n ≫ (8 * Z.of_nat w) = n `div` 256 ^ Z.of_nat w.
Proof.
  rewrite Z.shiftr_div_pow2 by lia.
  by rewrite Z.pow_mul_r by lia.
Qed.

Lemma from_be_to_be (w : nat) (n : Z) :
  Bytes.from_be (Bytes.to_be w n) = n `mod` 256 ^ Z.of_nat w.
Proof.
  induction w as [|w IH]; cbn [Bytes.to_be].
  - cbn. by rewrite Z.mod_1_r.
  - rewrite from_be_cons, to_be_length, IH, byte_of_land, shiftr_bytes.
    rewrite Nat2Z.inj_succ, Z.pow_succ_r by lia.
    rewrite (Z.mul_comm 256), Z.rem_mul_r by lia. lia.
Qed.

Lemma to_be_shift (w : nat) (x n : Z) :
  Bytes.to_be w (x * 256 ^ Z.of_nat w + n) = Bytes.to_be w n.
Proof.
  revert x. induction w as [|w IH]; intros x; cbn [Bytes.to_be]; [done|].
  rewrite Nat2Z.inj_succ, Z.pow_succ_r by lia.
  f_equal.
  - rewrite !byte_of_land, !shiftr_bytes.
    replace (x * (256 * 256 ^ Z.of_nat w) + n)
      with (n + (x * 256) * 256 ^ Z.of_nat w) by lia.
    rewrite Z.div_add by lia.
    by rewrite Z.mod_add by lia.
  - replace (x * (256 * 256 ^ Z.of_nat w) + n)
      with ((x * 256) * 256 ^ Z.of_nat w + n) by lia.
    by rewrite IH.
Qed.

Lemma to_be_from_be (b : bytes) :
  is_bytes b → Bytes.to_be (length b) (Bytes.from_be b) = b.
Proof.
  induction 1 as [|x b Hx Hb IH]; [done|].
  cbn [length Bytes.to_be]. rewrite from_be_cons.
  pose proof (from_be_bound b Hb) as Hr.
  f_equal.
  - rewrite byte_of_land, shiftr_bytes.
    rewrite Z.add_comm, Z.div_add by lia.
    rewrite Z.div_small by lia. cbn. apply Z.mod_small. lia.
  - by rewrite to_be_shift.
Qed.

(** X1. [to_b] succeeds exactly on the integers that fit, and [from_b]
    reads the result back: for [0 <= n < 256^length] the bytes have the
    requested length and [from_b (to_b n) = n] in either byte order;
    outside that range [to_b] raises. *)
Theorem to_b_then_from_b (n : Z) (len : nat) (order : byteorder) :
  (0 ≤ n < 256 ^ Z.of_nat len →
   ∃ b, to_b n len order = Some b ∧ length b = len ∧ is_bytes b ∧
        from_b b order = n) ∧
  (¬ (0 ≤ n < 256 ^ Z.of_nat len) → to_b n len order = None).
Proof.
  unfold to_b. split; intros Hn.
  - replace (0 <=? n) with true by (symmetry; apply Z.leb_le; lia).
    replace (n <? 256 ^ Z.of_nat len) with true by (symmetry; apply Z.ltb_lt; lia).
    cbn [andb]. eexists. split; [reflexivity|].
    destruct order; cbn [from_b].
    + rewrite to_be_length, from_be_to_be, Z.mod_small by lia.
      split; [done|]. split; [apply to_be_bytes|done].
    + rewrite length_reverse, reverse_involutive, to_be_length, from_be_to_be,
        Z.mod_small by lia.
      split; [done|]. split; [|done].
      apply Forall_reverse, to_be_bytes.
  - destruct (0 <=? n) eqn:H0; [|done].
    destruct (n <? 256 ^ Z.of_nat len) eqn:H1; [|done].
    apply Z.leb_le in H0. apply Z.ltb_lt in H1. lia.
Qed.

Lemma to_b_then_from_b_witness :
  (0 ≤ 0x1fe < 256 ^ Z.of_nat 2 →
   ∃ b, to_b 0x1fe 2 little = Some b ∧ length b = 2%nat ∧ is_bytes b ∧
        from_b b little = 0x1fe) ∧
  (¬ (0 ≤ 0x1fe < 256 ^ Z.of_nat 2) → to_b 0x1fe 2 little = None).
Proof. apply (to_b_then_from_b 0x1fe 2 little). Defined.

(** X2. [from_b] then [to_b] with the length of the buffer gives the
    buffer back, in either byte order. *)
Theorem from_b_then_to_b (b : bytes) (order : byteorder) :
  is_bytes b → to_b (from_b b order) (length b) order = Some b.
Proof.
  intros Hb. unfold to_b.
  assert (Hr : 0 ≤ from_b b order < 256 ^ Z.of_nat (length b)).
  { destruct order; cbn [from_b]; [by apply from_be_bound|].
    rewrite <- (length_reverse b). by apply from_be_bound, Forall_reverse. }
  replace (0 <=? from_b b order) with true by (symmetry; apply Z.leb_le; lia).
  replace (from_b b order <? 256 ^ Z.of_nat (length b)) with true
    by (symmetry; apply Z.ltb_lt; lia).
  cbn [andb]. f_equal. destruct order; cbn [from_b].
  - by apply to_be_from_be.
  - rewrite <- (length_reverse b), to_be_from_be by (by apply Forall_reverse).
    apply reverse_involutive.
Qed.

Lemma from_b_then_to_b_witness :
  to_b (from_b HEARTBEAT_RESPONSE big) (length HEARTBEAT_RESPONSE) big
  = Some HEARTBEAT_RESPONSE.
Proof.
  apply (from_b_then_to_b HEARTBEAT_RESPONSE big).
  unfold is_bytes, HEARTBEAT_RESPONSE. repeat (constructor; [lia|]). constructor.
Defined.

(** X3. The two enumerations are looked up by value without ambiguity:
    [MessageType(v)] and [Error(v)] return a member exactly when [v] is
    its value, so the values of the members are pairwise distinct. *)
Theorem enum_lookup_inverts_value :
  (∀ v m, MessageType.of_value v = Some m ↔ MessageType.value m = v) ∧
  (∀ v e, Error.of_value v = Some e ↔ Error.value e = v).
Proof.
  split; intros v m; split.
  - intros H. symmetry. by apply of_value_Some.
  - intros <-. by destruct m.
  - unfold Error.of_value. intros H.
    apply List.find_some in H as [_ H]. by apply Z.eqb_eq.
  - intros <-. by destruct m.
Qed.

Lemma enum_lookup_inverts_value_witness :
  MessageType.of_value 0x33 = Some MessageType.SESSION_ID ∧
  Error.value Error.RP_IN_USE = 0x80108b10.
Proof.
  destruct enum_lookup_inverts_value as [Hm He]. split.
  - apply Hm. reflexivity.
  - apply He. reflexivity.
Defined.

(** ** Building a frame *)

Section BuildFacts.

Variable keystream : bytes → bytes → nat → Z.

(** X4. The header of a built frame reads back: the frame has 8 bytes
    more than the payload, its first four bytes are the payload length and
    the next two the whole 16-bit message type, big-endian, then two zero
    bytes and the payload. A message type outside 0..65535 is refused by
    [pack_into]. *)
Theorem build_msg_header_reads_back
    (s : CTRL) (c : RPCipher.t) (msg_type : Z) (payload : bytes) :
  _cipher s = Some c → Z.of_nat (length payload) ≤ 0xFFFFFFFF →
  (0 ≤ msg_type ≤ 0xFFFF →
   ∃ msg s', _build_msg keystream s msg_type payload = Ok (msg, s') ∧
     length msg = (8 + length payload)%nat ∧
     from_b (take 4 msg) big = Z.of_nat (length payload) ∧
     from_b (take 2 (drop 4 msg)) big = msg_type ∧
     take 2 (drop 6 msg) = [0; 0] ∧
     drop 8 msg = payload) ∧
  (¬ (0 ≤ msg_type ≤ 0xFFFF) →
   _build_msg keystream s msg_type payload = Raise StructError).
Proof.
  intros Hc Hlen. split; intros Hty.
  - rewrite (build_msg_ok keystream s c) by done.
    eexists _, _. split; [reflexivity|].
    unfold header.
    set (n := Z.of_nat (length payload)).
    assert (H4 : length (Bytes.to_be 4 n) = 4%nat) by apply to_be_length.
    assert (H2 : length (Bytes.to_be 2 msg_type) = 2%nat) by apply to_be_length.
    rewrite <- !app_assoc.
    split; [rewrite !length_app; cbn [length]; lia|].
    split.
    { rewrite take_app_length' by done. cbn [from_b].
      rewrite from_be_to_be. apply Z.mod_small. cbn. lia. }
    rewrite (drop_app_length' _ _ 4) by done.
    split.
    { rewrite take_app_length' by done. cbn [from_b].
      rewrite from_be_to_be. apply Z.mod_small. cbn. lia. }
    change 6%nat with (4 + 2)%nat. change 8%nat with (4 + 2 + 2)%nat.
    rewrite <- !drop_drop.
    rewrite (drop_app_length' _ _ 4) by done.
    rewrite (drop_app_length' _ _ 2) by done.
    done.
  - unfold _build_msg, cipher_encrypt. rewrite Hc.
    cbn [RPCipher.encrypt]. rewrite bind_Ok.
    unfold pack_into, pack, Bytes.in_range.
    replace (0 <=? Z.of_nat (length payload)) with true
      by (symmetry; apply Z.leb_le; lia).
    replace (Z.of_nat (length payload) <=? 0xFFFFFFFF) with true
      by (symmetry; apply Z.leb_le; lia).
    cbn [andb negb].
    destruct (0 <=? msg_type) eqn:H0; [|done].
    destruct (msg_type <=? 0xFFFF) eqn:H1; [|done].
    apply Z.leb_le in H0. apply Z.leb_le in H1. lia.
Qed.

End BuildFacts.

Lemma build_msg_header_reads_back_witness :
  (0 ≤ 0x8004 ≤ 0xFFFF →
   ∃ msg s', _build_msg sample_keystream sample_session 0x8004 id_ABC123
             = Ok (msg, s') ∧
     length msg = (8 + length id_ABC123)%nat ∧
     from_b (take 4 msg) big = Z.of_nat (length id_ABC123) ∧
     from_b (take 2 (drop 4 msg)) big = 0x8004 ∧
     take 2 (drop 6 msg) = [0; 0] ∧
     drop 8 msg = id_ABC123) ∧
  (¬ (0 ≤ 0x8004 ≤ 0xFFFF) →
   _build_msg sample_keystream sample_session 0x8004 id_ABC123
   = Raise StructError).
Proof.
  apply (build_msg_header_reads_back sample_keystream sample_session
           sample_cipher 0x8004 id_ABC123).
  - reflexivity.
  - vm_compute. discriminate.
Defined.

(** ** Key derivation on inputs of any length *)

Lemma for_each_raises (body : bytes → nat → result bytes) (f : nat → Z)
    (N m : nat) (e : exn) :
  (∀ acc i, (i < m)%nat → length acc = N → body acc i = Ok (<[i:=f i]> acc)) →
  (∀ acc, length acc = N → body acc m = Raise e) →
  ∀ n a acc, (a ≤ m < a + n)%nat → length acc = N →
    for_each body (range a n) acc = Raise e.
Proof.
  intros Hok Hraise. unfold range.
  induction n as [|n IH]; intros a acc Ham Hlen; [lia|].
  cbn [seq for_each].
  destruct (decide (a = m)) as [->|Hne].
  - by rewrite Hraise.
  - rewrite Hok, bind_Ok by lia.
    apply IH; [lia|]. by rewrite length_insert.
Qed.

Section KeyDerivationLengths.

Variables CTRL_KEY_0 CTRL_KEY_1 : bytes.

Lemma rp_nonce_body_ok (nonce key acc : bytes) (i : nat) :
  (i < length nonce)%nat → (i < length key)%nat → (i < length acc)%nat →
  rp_nonce_body nonce key acc i
  = Ok (<[i:=Z.lxor (nonce !!! i + 54 + Z.of_nat i) (key !!! i) `mod` 256]> acc).
Proof.
  intros Hn Hk Ha. unfold rp_nonce_body.
  rewrite (getitem_lt nonce), bind_Ok by done.
  rewrite (getitem_lt key), bind_Ok by done.
  by rewrite setitem_byte.
Qed.

Lemma rp_nonce_body_raises (nonce key acc : bytes) (i : nat) :
  (length nonce ≤ i ∨ length key ≤ i)%nat →
  rp_nonce_body nonce key acc i = Raise IndexError.
Proof.
  intros H. unfold rp_nonce_body.
  destruct (decide (i < length nonce)%nat) as [Hn|Hn].
  - rewrite (getitem_lt nonce), bind_Ok by done.
    by rewrite (getitem_ge key) by lia.
  - by rewrite (getitem_ge nonce) by lia.
Qed.

Lemma get_rp_nonce_ok (nonce : bytes) :
  (16 ≤ length nonce)%nat →
  (Z.to_nat ((nonce !!! 0%nat ≫ 3) * 112) + 16 ≤ length CTRL_KEY_0)%nat →
  _get_rp_nonce CTRL_KEY_0 nonce = Ok (derive_session_nonce CTRL_KEY_0 nonce).
Proof.
  intros Hn HT. unfold _get_rp_nonce.
  rewrite getitem_lt, bind_Ok by lia.
  unfold RP_CRYPT_SIZE, bytearray.
  erewrite for_each_fill with (N := 16%nat);
    [reflexivity| |done|by rewrite length_replicate].
  intros acc i Hi Hacc.
  apply rp_nonce_body_ok; rewrite ?length_drop; lia.
Qed.

Lemma get_rp_nonce_raises (nonce : bytes) :
  (length nonce < 16 ∨
   length CTRL_KEY_0 < Z.to_nat ((nonce !!! 0%nat ≫ 3) * 112) + 16)%nat →
  _get_rp_nonce CTRL_KEY_0 nonce = Raise IndexError.
Proof.
  intros H. unfold _get_rp_nonce.
  destruct (decide (length nonce = 0)%nat) as [H0|H0].
  { by rewrite getitem_ge by lia. }
  rewrite getitem_lt, bind_Ok by lia.
  set (key := drop _ CTRL_KEY_0).
  assert (Hm : (length nonce `min` length key < 16)%nat).
  { subst key. rewrite length_drop. lia. }
  unfold RP_CRYPT_SIZE, bytearray.
  apply (for_each_raises _
           (λ i, Z.lxor (nonce !!! i + 54 + Z.of_nat i) (key !!! i) `mod` 256)
           16 (length nonce `min` length key)).
  - intros acc i Hi Hacc. apply rp_nonce_body_ok; lia.
  - intros acc Hacc. apply rp_nonce_body_raises. lia.
  - lia.
  - by rewrite length_replicate.
Qed.

Lemma aes_key_body_ok (nonce rp_key key acc : bytes) (i : nat) :
  (i < length nonce)%nat → (i < length rp_key)%nat → (i < length key)%nat →
  (i < length acc)%nat →
  aes_key_body nonce rp_key key acc i
  = Ok (<[i:=Z.lxor (Z.lxor (key !!! i) (rp_key !!! i) + 33 + Z.of_nat i)
                    (nonce !!! i) `mod` 256]> acc).
Proof.
  intros Hn Hr Hk Ha. unfold aes_key_body.
  rewrite (getitem_lt key), bind_Ok by done.
  rewrite (getitem_lt rp_key), bind_Ok by done.
  rewrite (getitem_lt nonce), bind_Ok by done.
  by rewrite setitem_byte.
Qed.

Lemma aes_key_body_raises (nonce rp_key key acc : bytes) (i : nat) :
  (length nonce ≤ i ∨ length rp_key ≤ i ∨ length key ≤ i)%nat →
  aes_key_body nonce rp_key key acc i = Raise IndexError.
Proof.
  intros H. unfold aes_key_body.
  destruct (decide (i < length key)%nat) as [Hk|Hk];
    [|by rewrite (getitem_ge key) by lia].
  rewrite (getitem_lt key), bind_Ok by done.
  destruct (decide (i < length rp_key)%nat) as [Hr|Hr];
    [|by rewrite (getitem_ge rp_key) by lia].
  rewrite (getitem_lt rp_key), bind_Ok by done.
  by rewrite (getitem_ge nonce) by lia.
Qed.

Lemma get_aes_key_ok (nonce rp_key : bytes) :
  (16 ≤ length nonce)%nat → (16 ≤ length rp_key)%nat →
  (Z.to_nat ((nonce !!! 7%nat ≫ 3) * 112) + 16 ≤ length CTRL_KEY_1)%nat →
  _get_aes_key CTRL_KEY_1 nonce rp_key
  = Ok (derive_aes_key CTRL_KEY_1 nonce rp_key).
Proof.
  intros Hn Hr HT. unfold _get_aes_key.
  rewrite getitem_lt, bind_Ok by lia.
  unfold RP_CRYPT_SIZE, bytearray.
  erewrite for_each_fill with (N := 16%nat);
    [reflexivity| |done|by rewrite length_replicate].
  intros acc i Hi Hacc.
  apply aes_key_body_ok; rewrite ?length_drop; lia.
Qed.

Lemma get_aes_key_raises (nonce rp_key : bytes) :
  (length nonce < 16 ∨ length rp_key < 16 ∨
   length CTRL_KEY_1 < Z.to_nat ((nonce !!! 7%nat ≫ 3) * 112) + 16)%nat →
  _get_aes_key CTRL_KEY_1 nonce rp_key = Raise IndexError.
Proof.
  intros H. unfold _get_aes_key.
  destruct (decide (length nonce ≤ 7)%nat) as [H0|H0].
  { by rewrite getitem_ge by lia. }
  rewrite getitem_lt, bind_Ok by lia.
  set (key := drop _ CTRL_KEY_1).
  set (m := (length nonce `min` (length rp_key `min` length key))%nat).
  assert (Hm : (m < 16)%nat).
  { subst m key. rewrite length_drop. lia. }
  unfold RP_CRYPT_SIZE, bytearray.
  apply (for_each_raises _
           (λ i, Z.lxor (Z.lxor (key !!! i) (rp_key !!! i) + 33 + Z.of_nat i)
                        (nonce !!! i) `mod` 256)
           16 m).
  - intros acc i Hi Hacc. apply aes_key_body_ok; lia.
  - intros acc Hacc. apply aes_key_body_raises. lia.
  - lia.
  - by rewrite length_replicate.
Qed.

(** X5. Neither derivation checks the length of its inputs. Each returns
    exactly when the nonce (and the pairing key) has at least 16 bytes and
    the selected block of the table has 16 bytes; otherwise it raises
    [IndexError], also for an empty nonce. *)
Theorem key_derivation_outcome (nonce rp_key : bytes) :
  ((16 ≤ length nonce)%nat ∧
   (Z.to_nat ((nonce !!! 0%nat ≫ 3) * 112) + 16 ≤ length CTRL_KEY_0)%nat →
   _get_rp_nonce CTRL_KEY_0 nonce = Ok (derive_session_nonce CTRL_KEY_0 nonce)) ∧
  ((length nonce < 16)%nat ∨
   (length CTRL_KEY_0 < Z.to_nat ((nonce !!! 0%nat ≫ 3) * 112) + 16)%nat →
   _get_rp_nonce CTRL_KEY_0 nonce = Raise IndexError) ∧
  ((16 ≤ length nonce)%nat ∧ (16 ≤ length rp_key)%nat ∧
   (Z.to_nat ((nonce !!! 7%nat ≫ 3) * 112) + 16 ≤ length CTRL_KEY_1)%nat →
   _get_aes_key CTRL_KEY_1 nonce rp_key
   = Ok (derive_aes_key CTRL_KEY_1 nonce rp_key)) ∧
  ((length nonce < 16)%nat ∨ (length rp_key < 16)%nat ∨
   (length CTRL_KEY_1 < Z.to_nat ((nonce !!! 7%nat ≫ 3) * 112) + 16)%nat →
   _get_aes_key CTRL_KEY_1 nonce rp_key = Raise IndexError).
Proof.
  split; [|split; [|split]].
  - intros [? ?]. by apply get_rp_nonce_ok.
  - apply get_rp_nonce_raises.
  - intros (? & ? & ?). by apply get_aes_key_ok.
  - intros H. apply get_aes_key_raises. tauto.
Qed.

End KeyDerivationLengths.

Lemma key_derivation_outcome_witness :
  _get_rp_nonce sample_table sample_nonce
  = Ok (derive_session_nonce sample_table sample_nonce) ∧
  _get_rp_nonce sample_table [1; 2; 3] = Raise IndexError ∧
  _get_aes_key sample_table sample_nonce sample_pairing_key
  = Ok (derive_aes_key sample_table sample_nonce sample_pairing_key) ∧
  _get_aes_key sample_table sample_nonce [] = Raise IndexError.
Proof.
  split; [|split; [|split]].
  - apply (key_derivation_outcome sample_table sample_table sample_nonce
             sample_pairing_key).
    split; apply Nat.leb_le; vm_compute; reflexivity.
  - apply (key_derivation_outcome sample_table sample_table [1; 2; 3]
             sample_pairing_key).
    left. simpl. lia.
  - apply (key_derivation_outcome sample_table sample_table sample_nonce
             sample_pairing_key).
    repeat split; apply Nat.leb_le; vm_compute; reflexivity.
  - apply (key_derivation_outcome sample_table sample_table sample_nonce []).
    right. left. simpl. lia.
Defined.

Lemma derive_session_nonce_app (T nonce extra : bytes) :
  (16 ≤ length nonce)%nat →
  derive_session_nonce T (nonce ++ extra) = derive_session_nonce T nonce.
Proof.
  intros Hn. unfold derive_session_nonce.
  rewrite (lookup_total_app_l nonce extra 0) by lia.
  apply list_fmap_ext. intros j i Hi.
  apply lookup_seq in Hi as [-> Hi]. cbn.
  by rewrite lookup_total_app_l by lia.
Qed.

Lemma derive_aes_key_app (T nonce rp_key extra extra' : bytes) :
  (16 ≤ length nonce)%nat → (16 ≤ length rp_key)%nat →
  derive_aes_key T (nonce ++ extra) (rp_key ++ extra')
  = derive_aes_key T nonce rp_key.
Proof.
  intros Hn Hr. unfold derive_aes_key.
  rewrite (lookup_total_app_l nonce extra 7) by lia.
  apply list_fmap_ext. intros j i Hi.
  apply lookup_seq in Hi as [-> Hi]. cbn.
  by rewrite !lookup_total_app_l by lia.
Qed.

(** X6. Bytes beyond the first 16 of the nonce and of the pairing key
    play no part: a longer input is accepted and gives the result of its
    first 16 bytes, whatever the tables are. *)
Theorem key_derivation_ignores_extra_bytes
    (CTRL_KEY_0 CTRL_KEY_1 nonce rp_key extra extra' : bytes) :
  (16 ≤ length nonce)%nat → (16 ≤ length rp_key)%nat →
  _get_rp_nonce CTRL_KEY_0 (nonce ++ extra) = _get_rp_nonce CTRL_KEY_0 nonce ∧
  _get_aes_key CTRL_KEY_1 (nonce ++ extra) (rp_key ++ extra')
  = _get_aes_key CTRL_KEY_1 nonce rp_key.
Proof.
  intros Hn Hr. split.
  - destruct (decide (Z.to_nat ((nonce !!! 0%nat ≫ 3) * 112) + 16
                      ≤ length CTRL_KEY_0)%nat) as [HT|HT].
    + rewrite !get_rp_nonce_ok;
        rewrite ?lookup_total_app_l, ?length_app by lia; try lia.
      by rewrite derive_session_nonce_app.
    + rewrite !get_rp_nonce_raises;
        rewrite ?lookup_total_app_l by lia; try lia. done.
  - destruct (decide (Z.to_nat ((nonce !!! 7%nat ≫ 3) * 112) + 16
                      ≤ length CTRL_KEY_1)%nat) as [HT|HT].
    + rewrite !get_aes_key_ok;
        rewrite ?lookup_total_app_l, ?length_app by lia; try lia.
      by rewrite derive_aes_key_app.
    + rewrite !get_aes_key_raises;
        rewrite ?lookup_total_app_l by lia; try lia. done.
Qed.

Lemma key_derivation_ignores_extra_bytes_witness :
  _get_rp_nonce sample_table (sample_nonce ++ [7; 7])
  = _get_rp_nonce sample_table sample_nonce ∧
  _get_aes_key sample_table (sample_nonce ++ [7; 7]) (sample_pairing_key ++ [9])
  = _get_aes_key sample_table sample_nonce sample_pairing_key.
Proof.
  apply (key_derivation_ignores_extra_bytes sample_table sample_table
           sample_nonce sample_pairing_key [7; 7] [9]); simpl; lia.
Defined.

(** *** The derived key determines the pairing key *)

Lemma lxor_byte_bound (a b : Z) :
  0 ≤ a < 256 → 0 ≤ b < 256 → 0 ≤ Z.lxor a b < 256.
Proof.
  intros Ha Hb.
  assert (H0 : 0 ≤ Z.lxor a b) by (apply Z.lxor_nonneg; lia).
  split; [done|].
  destruct (decide (a = 0)) as [->|Ha0]; [rewrite Z.lxor_0_l; lia|].
  destruct (decide (b = 0)) as [->|Hb0]; [rewrite Z.lxor_0_r; lia|].
  destruct (decide (Z.lxor a b = 0)) as [->|Hx0]; [lia|].
  change 256 with (2 ^ 8).
  apply Z.log2_lt_pow2; [lia|].
  pose proof (Z.log2_lxor a b ltac:(lia) ltac:(lia)) as Hl.
  assert (Z.log2 a < 8) by (apply Z.log2_lt_pow2; lia).
  assert (Z.log2 b < 8) by (apply Z.log2_lt_pow2; lia).
  lia.
Qed.

Lemma lxor_cancel_r (a b n : Z) : Z.lxor a n = Z.lxor b n → a = b.
Proof.
  intros H.
  rewrite <- (Z.lxor_0_r a), <- (Z.lxor_0_r b), <- (Z.lxor_nilpotent n).
  by rewrite <- !Z.lxor_assoc, H.
Qed.

Lemma lxor_cancel_l (a b n : Z) : Z.lxor n a = Z.lxor n b → a = b.
Proof. rewrite !(Z.lxor_comm n). apply lxor_cancel_r. Qed.

Lemma lxor_mod_cancel (x y n : Z) :
  Z.lxor x n `mod` 256 = Z.lxor y n `mod` 256 → x `mod` 256 = y `mod` 256.
Proof.
  change 256 with (2 ^ 8). intros H.
  apply Z.bits_inj'. intros k Hk.
  destruct (decide (k < 8)) as [Hlt|Hge].
  - rewrite !Z.mod_pow2_bits_low by lia.
    assert (Hb : Z.testbit (Z.lxor x n `mod` 2 ^ 8) k
                 = Z.testbit (Z.lxor y n `mod` 2 ^ 8) k) by (by rewrite H).
    rewrite !Z.mod_pow2_bits_low, !Z.lxor_spec in Hb by lia.
    by destruct (Z.testbit x k), (Z.testbit y k), (Z.testbit n k).
  - by rewrite !Z.mod_pow2_bits_high by lia.
Qed.

Lemma add_mod_cancel (a b c : Z) :
  0 ≤ a < 256 → 0 ≤ b < 256 →
  (a + c) `mod` 256 = (b + c) `mod` 256 → a = b.
Proof.
  intros Ha Hb H.
  pose proof (Z.div_mod (a + c) 256 ltac:(lia)).
  pose proof (Z.div_mod (b + c) 256 ltac:(lia)).
  lia.
Qed.

(** X7. For tables and pairing keys made of bytes, [_get_aes_key] is
    one-to-one in the pairing key: under the same server nonce two 16-byte
    pairing keys that give the same AES key are equal. *)
Theorem aes_key_determines_pairing_key (CTRL_KEY_1 nonce k1 k2 : bytes) :
  is_bytes CTRL_KEY_1 → is_bytes k1 → is_bytes k2 →
  (16 ≤ length nonce)%nat → length k1 = 16%nat → length k2 = 16%nat →
  (Z.to_nat ((nonce !!! 7%nat ≫ 3) * 112) + 16 ≤ length CTRL_KEY_1)%nat →
  _get_aes_key CTRL_KEY_1 nonce k1 = _get_aes_key CTRL_KEY_1 nonce k2 →
  k1 = k2.
Proof.
  intros HT H1 H2 Hn Hl1 Hl2 Hoff Heq.
  rewrite !get_aes_key_ok in Heq by lia.
  assert (Hd : derive_aes_key CTRL_KEY_1 nonce k1
               = derive_aes_key CTRL_KEY_1 nonce k2) by congruence.
  clear Heq. rename Hd into Heq. unfold derive_aes_key in Heq.
  set (key := drop _ CTRL_KEY_1) in Heq.
  assert (Hkey : is_bytes key) by (by apply Forall_drop).
  apply list_eq_same_length with 16%nat; [done..|].
  intros i x y Hi Hx Hy.
  assert (Hin : i ∈ seq 0 16) by (apply elem_of_seq; lia).
  pose proof (list_fmap_inj_1 _ _ _ i Heq Hin) as Hb. cbn in Hb.
  apply list_lookup_total_correct in Hx as Hx'.
  apply list_lookup_total_correct in Hy as Hy'.
  rewrite Hx', Hy' in Hb.
  assert (Hkb : 0 ≤ key !!! i < 256).
  { apply is_bytes_lookup; [done|]. subst key. rewrite length_drop. lia. }
  assert (Hxb : 0 ≤ x < 256) by (rewrite <- Hx'; apply is_bytes_lookup; [done|lia]).
  assert (Hyb : 0 ≤ y < 256) by (rewrite <- Hy'; apply is_bytes_lookup; [done|lia]).
  apply lxor_mod_cancel in Hb.
  rewrite <- !Z.add_assoc in Hb.
  apply add_mod_cancel in Hb; [|by apply lxor_byte_bound..].
  by apply lxor_cancel_l in Hb.
Qed.

Lemma byte_table_bytes : is_bytes byte_table.
Proof.
  unfold is_bytes, byte_table. apply Forall_fmap, Forall_forall.
  intros i _. cbn. apply Z.mod_pos_bound. lia.
Qed.

Lemma sample_pairing_key_bytes : is_bytes sample_pairing_key.
Proof.
  unfold is_bytes, sample_pairing_key. apply Forall_fmap, Forall_forall.
  intros i Hi. apply elem_of_seq in Hi. cbn. lia.
Qed.

Lemma aes_key_determines_pairing_key_witness :
  sample_pairing_key = sample_pairing_key.
Proof.
  apply (aes_key_determines_pairing_key byte_table sample_nonce
           sample_pairing_key sample_pairing_key).
  - exact byte_table_bytes.
  - exact sample_pairing_key_bytes.
  - exact sample_pairing_key_bytes.
  - simpl. lia.
  - reflexivity.
  - reflexivity.
  - apply Nat.leb_le. vm_compute. reflexivity.
  - reflexivity.
Defined.

(** X8. Within one block of the table [_get_rp_nonce] is one-to-one: two
    16-byte server nonces whose first bytes select the same block and
    that give the same session nonce are equal. *)
Theorem rp_nonce_determines_server_nonce (CTRL_KEY_0 n1 n2 : bytes) :
  is_bytes n1 → is_bytes n2 → length n1 = 16%nat → length n2 = 16%nat →
  n1 !!! 0%nat ≫ 3 = n2 !!! 0%nat ≫ 3 →
  (Z.to_nat ((n1 !!! 0%nat ≫ 3) * 112) + 16 ≤ length CTRL_KEY_0)%nat →
  _get_rp_nonce CTRL_KEY_0 n1 = _get_rp_nonce CTRL_KEY_0 n2 →
  n1 = n2.
Proof.
  intros H1 H2 Hl1 Hl2 Hblk Hoff Heq.
  rewrite !get_rp_nonce_ok in Heq by (rewrite <- ?Hblk; lia).
  assert (Hd : derive_session_nonce CTRL_KEY_0 n1
               = derive_session_nonce CTRL_KEY_0 n2) by congruence.
  clear Heq. unfold derive_session_nonce in Hd. rewrite <- Hblk in Hd.
  set (key := drop _ CTRL_KEY_0) in Hd.
  apply list_eq_same_length with 16%nat; [done..|].
  intros i x y Hi Hx Hy.
  assert (Hin : i ∈ seq 0 16) by (apply elem_of_seq; lia).
  pose proof (list_fmap_inj_1 _ _ _ i Hd Hin) as Hb. cbn in Hb.
  apply list_lookup_total_correct in Hx as Hx'.
  apply list_lookup_total_correct in Hy as Hy'.
  rewrite Hx', Hy' in Hb.
  assert (Hxb : 0 ≤ x < 256) by (rewrite <- Hx'; apply is_bytes_lookup; [done|lia]).
  assert (Hyb : 0 ≤ y < 256) by (rewrite <- Hy'; apply is_bytes_lookup; [done|lia]).
  apply lxor_mod_cancel in Hb.
  rewrite <- !Z.add_assoc in Hb.
  by apply add_mod_cancel in Hb.
Qed.

Lemma rp_nonce_determines_server_nonce_witness : sample_nonce = sample_nonce.
Proof.
  apply (rp_nonce_determines_server_nonce sample_table sample_nonce sample_nonce).
  - exact sample_nonce_bytes.
  - exact sample_nonce_bytes.
  - reflexivity.
  - reflexivity.
  - reflexivity.
  - apply Nat.leb_le. vm_compute. reflexivity.
  - reflexivity.
Defined.

(** ** What the dispatch leaves alone, and what it only extends *)

Lemma advance_advance (c : RPCipher.t) (n m : nat) :
  RPCipher.advance (RPCipher.advance c n) m = RPCipher.advance c (n + m).
Proof. unfold RPCipher.advance. cbn. by rewrite Nat.add_assoc. Qed.

Section Growth.

Variable keystream : bytes → bytes → nat → Z.
Variable wall_clock : nat → float.

(** A property of the session that survives each elementary step of the
    dispatch, taken as the dispatch makes it: the cipher moving forward,
    one more buffer written to the open socket, the clock read once more,
    one more log record or event, a new heartbeat time, stream or
    identity. *)
Variable P : CTRL → Prop.
Hypothesis P_advance : ∀ s c n,
  P s → _cipher s = Some c → P (set_cipher s (Some (RPCipher.advance c n))).
Hypothesis P_send : ∀ s k msg,
  P s → _sock s = Some k → closed k = false →
  P (set_sock s (Some {| sent := sent k ++ [msg]; closed := false |})).
Hypothesis P_tick : ∀ s, P s → P (set_clock s (S (clock s))).
Hypothesis P_add_log : ∀ s r, P s → P (add_log s r).
Hypothesis P_add_event : ∀ s e, P s → P (add_event s e).
Hypothesis P_hb_last : ∀ s v, P s → P (set_hb_last s v).
Hypothesis P_stream : ∀ s v, P s → P (set_stream s v).
Hypothesis P_session_id : ∀ s v, P s → P (set_session_id s v).

Lemma cipher_encrypt_grows (s s' : CTRL) (buf out : bytes) :
  P s → cipher_encrypt keystream s buf = Ok (out, s') → P s'.
Proof.
  intros HP. unfold cipher_encrypt. destruct (_cipher s) as [c|] eqn:Hc; [|done].
  cbn. intros [= _ <-]. by apply P_advance.
Qed.

Lemma cipher_decrypt_grows (s s' : CTRL) (buf out : bytes) :
  P s → cipher_decrypt keystream s buf = Ok (out, s') → P s'.
Proof.
  intros HP. unfold cipher_decrypt. destruct (_cipher s) as [c|] eqn:Hc; [|done].
  cbn. intros [= _ <-]. by apply P_advance.
Qed.

Lemma sock_send_grows (s s' : CTRL) (msg : bytes) :
  P s → sock_send s msg = Ok s' → P s'.
Proof.
  intros HP. unfold sock_send. destruct (_sock s) as [k|] eqn:Hk; [|done].
  destruct (closed k) eqn:Hcl; [done|]. intros [= <-]. by apply P_send.
Qed.

Lemma build_msg_grows (s s' : CTRL) (msg_type : Z) (payload msg : bytes) :
  P s → _build_msg keystream s msg_type payload = Ok (msg, s') → P s'.
Proof.
  intros HP. unfold _build_msg. intros H.
  apply bind_inv in H as ([out s1] & Henc & H).
  apply bind_inv in H as (buf & _ & [= _ <-]).
  by eapply cipher_encrypt_grows.
Qed.

Lemma send_hb_response_grows (s s' : CTRL) :
  P s → _send_hb_response keystream s = Ok s' → P s'.
Proof.
  intros HP. unfold _send_hb_response. intros H.
  apply bind_inv in H as ([msg s1] & Hb & H).
  eapply sock_send_grows; [|exact H]. by eapply build_msg_grows.
Qed.

Lemma send_hb_request_grows (s s' : CTRL) :
  P s → _send_hb_request keystream s = Ok s' → P s'.
Proof.
  intros HP. unfold _send_hb_request. intros H.
  apply bind_inv in H as ([msg s1] & Hb & H).
  eapply sock_send_grows; [|exact H]. by eapply build_msg_grows.
Qed.

Lemma heartbeat_check_grows (s s' : CTRL) :
  P s → heartbeat_check keystream wall_clock s = Ok s' → P s'.
Proof.
  intros HP. unfold heartbeat_check, time_time. cbn beta iota.
  destruct (_ <? _)%float.
  - apply send_hb_request_grows. by apply P_add_log, P_tick.
  - intros [= <-]. by apply P_tick.
Qed.

Lemma decode_grows (s s' : CTRL) (data payload : bytes) (b : Z) :
  P s → decode keystream s data = Ok (b, payload, s') → P s'.
Proof.
  intros HP. unfold decode. intros H.
  apply bind_inv in H as ([payload' s1] & Hd & H).
  apply bind_inv in H as (b' & _ & [= _ _ <-]).
  case_bool_decide.
  - by eapply cipher_decrypt_grows.
  - by injection Hd as _ <-.
Qed.

Lemma handle_grows (s s' : CTRL) (data : bytes) :
  P s → _handle keystream wall_clock s data = Ok s' → P s'.
Proof.
  intros HP. unfold _handle. intros H.
  apply bind_inv in H as ([[b payload] s1] & Hd & H).
  assert (HP1 : P s1) by (by eapply decode_grows).
  destruct (MessageType.of_value b) as [ty|] eqn:Hty.
  2:{ injection H as <-. by apply P_add_log. }
  apply bind_inv in H as (s2 & H2 & H).
  destruct ty; revert H2 H; eval_eqb; intros H2 H.
  all: try (injection H2 as <-; by apply (heartbeat_check_grows _ _ HP1 H)).
  - (* SESSION_ID *)
    injection H2 as <-.
    destruct (Bytes.utf8_valid (drop 2 payload)).
    + refine (heartbeat_check_grows _ _ _ H).
      unfold start_stream.
      destruct (_cb_start _); [|case_bool_decide]; auto.
    + injection H as <-. by apply P_add_log.
  - (* HEARTBEAT_REQUEST *)
    unfold time_time in H2. cbn beta iota in H2.
    refine (heartbeat_check_grows _ _ _ H).
    refine (send_hb_response_grows _ _ _ H2).
    by apply P_hb_last, P_tick.
  - (* HEARTBEAT_RESPONSE *)
    injection H2 as <-. unfold time_time in H. cbn beta iota in H.
    refine (heartbeat_check_grows _ _ _ H).
    by apply P_hb_last, P_tick.
Qed.

End Growth.

Section DispatchInvariants.

Variable keystream : bytes → bytes → nat → Z.
Variable wall_clock : nat → float.

(** X9. No inbound message, known or unknown, well-formed or not, stops
    the session or changes its state: after any dispatch that returns,
    the stop event, the state, the worker flag and the registered
    callback are the ones before. *)
Theorem dispatch_never_stops_the_session (s s' : CTRL) (data : bytes) :
  _handle keystream wall_clock s data = Ok s' →
  _stop_event s' = _stop_event s ∧ _state s' = _state s ∧
  _worker s' = _worker s ∧ _cb_start s' = _cb_start s.
Proof.
  intros H.
  by apply (handle_grows keystream wall_clock
              (λ x, _stop_event x = _stop_event s ∧ _state x = _state s ∧
                    _worker x = _worker s ∧ _cb_start x = _cb_start s))
       with (s := s) (data := data).
Qed.

(** X10. The dispatch only ever adds to what the session has written and
    recorded: the buffers written to the socket before are still there, in
    order, followed by the new ones, and the socket is not closed; the log
    and the calls to the collaborators grow at the end; the clock does not
    go back. *)
Theorem dispatch_only_appends (s s' : CTRL) (k : socket) (data : bytes) :
  _sock s = Some k →
  _handle keystream wall_clock s data = Ok s' →
  (∃ more, _sock s' = Some {| sent := sent k ++ more; closed := closed k |}) ∧
  (∃ more, log s' = log s ++ more) ∧
  (∃ more, events s' = events s ++ more) ∧
  (clock s ≤ clock s')%nat.
Proof.
  intros Hk H.
  apply (handle_grows keystream wall_clock
           (λ x, (∃ more, _sock x = Some {| sent := sent k ++ more;
                                              closed := closed k |}) ∧
                 (∃ more, log x = log s ++ more) ∧
                 (∃ more, events x = events s ++ more) ∧
                 (clock s ≤ clock x)%nat))
    with (s := s) (data := data); try done.
  - intros x k' msg ([more Hs] & ? & ? & ?) Hk' Hcl. cbn.
    rewrite Hs in Hk'. injection Hk' as <-. cbn in Hcl.
    split; [|done]. exists (more ++ [msg]). by rewrite Hcl, app_assoc.
  - intros x (? & ? & ? & ?). cbn. repeat split; try done. lia.
  - intros x r (? & [more Hl] & ? & ?). cbn. repeat split; try done.
    exists (more ++ [r]). by rewrite Hl, app_assoc.
  - intros x e (? & ? & [more He] & ?). cbn. repeat split; try done.
    exists (more ++ [e]). by rewrite He, app_assoc.
  - split; [|split; [|split]]; try (exists []; by rewrite app_nil_r); [|lia].
    exists []. rewrite app_nil_r, Hk. by destruct k.
Qed.

(** X11. The dispatch never replaces the cipher and never rewinds it:
    key and nonce stay, and the position only moves forward. *)
Theorem dispatch_never_rewinds_cipher
    (s s' : CTRL) (c : RPCipher.t) (data : bytes) :
  _cipher s = Some c →
  _handle keystream wall_clock s data = Ok s' →
  ∃ n, _cipher s' = Some (RPCipher.advance c n).
Proof.
  intros Hc H.
  apply (handle_grows keystream wall_clock
           (λ x, ∃ n, _cipher x = Some (RPCipher.advance c n)))
    with (s := s) (data := data); try done.
  - intros x c' n [m Hm] Hc'. cbn. rewrite Hm in Hc'. injection Hc' as <-.
    exists (m + n)%nat. by rewrite advance_advance.
  - exists 0%nat. by rewrite advance_0.
Qed.

End DispatchInvariants.

Section DispatchCipher.

Variable keystream : bytes → bytes → nat → Z.
Variable wall_clock : nat → float.

Lemma heartbeat_check_cipher (s : CTRL) :
  ready s = true →
  ∃ s', heartbeat_check keystream wall_clock s = Ok s' ∧ _cipher s' = _cipher s.
Proof.
  intros Hready. destruct (ready_inv s Hready) as (c & k & Hc & Hk & Hcl).
  rewrite (heartbeat_check_ok keystream wall_clock s c k) by done.
  eexists. split; [reflexivity|]. by destruct (_ <? _)%float.
Qed.

Lemma handle_known_cipher
    (s : CTRL) (c : RPCipher.t) (data : bytes) (b : Z) (ty : MessageType.t) :
  ready s = true → _cipher s = Some c →
  data !! 5%nat = Some b → MessageType.of_value b = Some ty →
  (ty = MessageType.SESSION_ID →
   Bytes.utf8_valid (drop 2 (RPCipher.decrypt keystream c (drop 8 data)).1) = true) →
  ∃ s', _handle keystream wall_clock s data = Ok s' ∧
    _cipher s'
    = Some (RPCipher.advance c
              (length (drop 8 data)
               + (if MessageType.eqb ty MessageType.HEARTBEAT_REQUEST
                  then 8 else 0))).
Proof.
  intros Hready Hc Hb Hty Hvalid.
  destruct (ready_inv s Hready) as (c' & k & Hc' & Hk & Hcl).
  rewrite Hc in Hc'. injection Hc' as <-.
  unfold _handle. rewrite (decode_ok keystream s c data b), bind_Ok by done.
  cbn beta iota. rewrite Hty.
  set (s1 := set_cipher s (Some (RPCipher.advance c (length (drop 8 data))))).
  assert (Hr1 : ready s1 = true) by (unfold ready; cbn; by rewrite Hk, Hcl).
  destruct ty; eval_eqb; cbn beta iota; rewrite ?bind_Ok.
  all: try (destruct (heartbeat_check_cipher s1 Hr1) as (s' & -> & Hs');
    exists s'; split; [done|]; rewrite Hs'; cbn; by rewrite Nat.add_0_r).
  - (* SESSION_ID *)
    rewrite Hvalid by done.
    match goal with |- context [heartbeat_check _ _ ?x] => set (s2 := x) end.
    assert (Hr2 : ready s2 = true ∧ _cipher s2 = _cipher s1).
    { subst s2. unfold start_stream, ready.
      destruct (_cb_start _); [|case_bool_decide]; cbn; by rewrite Hk, Hcl. }
    destruct Hr2 as [Hr2 Hc2].
    destruct (heartbeat_check_cipher s2 Hr2) as (s' & -> & Hs').
    exists s'. split; [done|]. rewrite Hs', Hc2. cbn. by rewrite Nat.add_0_r.
  - (* HEARTBEAT_REQUEST *)
    unfold time_time. cbn beta iota.
    erewrite send_hb_response_ok by (cbn; done). rewrite bind_Ok.
    match goal with |- context [heartbeat_check _ _ ?x] => set (s2 := x) end.
    assert (Hr2 : ready s2 = true) by done.
    destruct (heartbeat_check_cipher s2 Hr2) as (s' & -> & Hs').
    exists s'. split; [done|]. rewrite Hs'. cbn. by rewrite advance_advance.
  - (* HEARTBEAT_RESPONSE *)
    unfold time_time. cbn beta iota.
    match goal with |- context [heartbeat_check _ _ ?x] => set (s2 := x) end.
    assert (Hr2 : ready s2 = true) by done.
    destruct (heartbeat_check_cipher s2 Hr2) as (s' & -> & Hs').
    exists s'. split; [done|]. rewrite Hs'. cbn. by rewrite Nat.add_0_r.
Qed.

(** X12. How much keystream a dispatch consumes: on a ready session a
    buffer of at least 6 bytes moves the cipher on by the number of bytes
    from offset 8, and by 8 more when byte 5 is 0xfe, for the heartbeat
    echo that [_send_hb_response] builds. Nothing else moves it: not an
    unknown type, not an undecodable session id, not the corrective
    heartbeat request. *)
Theorem dispatch_keystream_use (s : CTRL) (c : RPCipher.t) (data : bytes) :
  ready s = true → _cipher s = Some c → (6 ≤ length data)%nat →
  ∃ s', _handle keystream wall_clock s data = Ok s' ∧
    _cipher s'
    = Some (RPCipher.advance c
              (length data - 8
               + (if bool_decide (data !! 5%nat = Some 0xfe%Z) then 8 else 0))).
Proof.
  intros Hready Hc Hlen.
  assert (Hb : data !! 5%nat = Some (data !!! 5%nat))
    by (apply list_lookup_lookup_total_lt; lia).
  rewrite <- (length_drop data 8).
  destruct (MessageType.of_value (data !!! 5%nat)) as [ty|] eqn:Hty.
  2:{ rewrite (handle_unknown keystream wall_clock s c data _ Hc Hb Hty).
      eexists. split; [done|]. cbn.
      rewrite bool_decide_false; [by rewrite Nat.add_0_r|].
      rewrite Hb. intros [= H]. by rewrite H in Hty. }
  assert (Hfe : (if bool_decide (data !! 5%nat = Some 0xfe%Z) then 8 else 0)%nat
                = (if MessageType.eqb ty MessageType.HEARTBEAT_REQUEST
                   then 8 else 0)%nat).
  { apply of_value_Some in Hty. rewrite Hb, Hty.
    destruct ty; by vm_compute. }
  rewrite Hfe.
  destruct (Bytes.utf8_valid
              (drop 2 (RPCipher.decrypt keystream c (drop 8 data)).1)) eqn:Hv.
  - by apply (handle_known_cipher s c data (data !!! 5%nat) ty).
  - destruct (MessageType.eqb ty MessageType.SESSION_ID) eqn:Heq.
    + assert (ty = MessageType.SESSION_ID) as -> by (by destruct ty).
      apply of_value_Some in Hty. rewrite Hty in Hb.
      rewrite (handle_malformed keystream wall_clock s c data Hc Hb Hv).
      eexists. split; [done|]. cbn. by rewrite Nat.add_0_r.
    + apply (handle_known_cipher s c data (data !!! 5%nat) ty); try done.
      by intros ->.
Qed.

End DispatchCipher.

(** ** Dispatch and frame boundaries *)

Section DispatchFrames.

Variable keystream : bytes → bytes → nat → Z.
Variable wall_clock : nat → float.



End DispatchFrames.



(** ** The listener *)

Lemma bind_assoc {A B C : Type} (m : result A) (f : A → result B)
    (g : B → result C) :
  (m ≫= f) ≫= g = m ≫= (λ x, f x ≫= g).
Proof. by destruct m. Qed.

Section ListenerFacts.

Variable keystream : bytes → bytes → nat → Z.
Variable wall_clock : nat → float.

Lemma handle_stop_event (s s' : CTRL) (data : bytes) :
  _handle keystream wall_clock s data = Ok s' → _stop_event s' = _stop_event s.
Proof.
  intros H.
  by apply (handle_grows keystream wall_clock
              (λ x, _stop_event x = _stop_event s))
       with (s := s) (data := data).
Qed.

Lemma listener_loop_stopped (handle : CTRL → bytes → result CTRL)
    (reads : list (option bytes)) (s : CTRL) :
  _stop_event s = true →
  listener_loop handle reads s
  = match _sock s with
    | None => Raise AttributeError
    | Some k =>
      Ok (add_log (set_sock s (Some {| sent := sent k; closed := true |}))
                  LogStopped)
    end.
Proof. intros H. destruct reads as [|[?|] ?]; cbn; by rewrite H. Qed.

Lemma listener_loop_app (reads rest : list (option bytes)) (s : CTRL) :
  Forall (λ r, r ≠ Some []) reads → _stop_event s = false →
  listener_loop (_handle keystream wall_clock) (reads ++ rest) s
  = s1 ← for_each (_handle keystream wall_clock) (omap id reads) s;
    listener_loop (_handle keystream wall_clock) rest s1.
Proof.
  intros Hne. revert s.
  induction Hne as [|r reads Hr Hne IH]; intros s Hstop.
  - reflexivity.
  - cbn [app listener_loop]. rewrite Hstop.
    destruct r as [data|].
    + destruct data as [|x data]; [done|].
      change (omap id (Some (x :: data) :: reads))
        with ((x :: data) :: omap id reads).
      cbn [length Nat.ltb Nat.leb for_each]. rewrite bind_assoc.
      destruct (_handle keystream wall_clock s (x :: data)) as [s'|e] eqn:Hh;
        [|done].
      rewrite !bind_Ok. apply IH.
      by rewrite (handle_stop_event _ _ _ Hh).
    + change (omap id (None :: reads)) with (omap id reads). by apply IH.
Qed.

Lemma for_each_handle_stop_event (datas : list bytes) (s s' : CTRL) :
  for_each (_handle keystream wall_clock) datas s = Ok s' →
  _stop_event s' = _stop_event s.
Proof.
  revert s. induction datas as [|d datas IH]; intros s H.
  - by injection H as <-.
  - cbn [for_each] in H. apply bind_inv in H as (s1 & H1 & H).
    rewrite (IH _ H). by apply handle_stop_event in H1.
Qed.

(** X13. The listener hands every non-empty read to the dispatch, in
    order, and skips the polls that find nothing; an exception of the
    dispatch ends it. At the first empty read it sets the stop event,
    closes the socket and looks at nothing that comes after. A stop
    requested before the listener starts is cleared. *)
Theorem listener_runs_until_empty_read
    (reads rest : list (option bytes)) (s : CTRL) :
  Forall (λ r, r ≠ Some []) reads →
  listener (_handle keystream wall_clock) reads s
  = for_each (_handle keystream wall_clock) (omap id reads)
      (set_stop_event s false) ∧
  listener (_handle keystream wall_clock) (reads ++ Some [] :: rest) s
  = s1 ← for_each (_handle keystream wall_clock) (omap id reads)
           (set_stop_event s false);
    match _sock s1 with
    | None => Raise AttributeError
    | Some k =>
      Ok (add_log (set_sock (set_stop_event s1 true)
                     (Some {| sent := sent k; closed := true |}))
                  LogStopped)
    end.
Proof.
  intros Hne. unfold listener. split.
  - rewrite <- (app_nil_r reads) at 1.
    rewrite listener_loop_app by done.
    destruct (for_each _ _ _) as [s1|e] eqn:Hf; [|done].
    rewrite bind_Ok. cbn [listener_loop].
    by rewrite (for_each_handle_stop_event _ _ _ Hf).
  - rewrite listener_loop_app by done.
    destruct (for_each _ _ _) as [s1|e] eqn:Hf; [|done].
    rewrite !bind_Ok. cbn [listener_loop].
    rewrite (for_each_handle_stop_event _ _ _ Hf). cbn.
    by rewrite listener_loop_stopped.
Qed.

End ListenerFacts.

Lemma listener_runs_until_empty_read_witness :
  listener (_handle sample_keystream (clock_at 30)) [None; Some standby_frame]
    sample_session
  = for_each (_handle sample_keystream (clock_at 30))
      (omap id [None; Some standby_frame])
      (set_stop_event sample_session false) ∧
  listener (_handle sample_keystream (clock_at 30))
    ([None; Some standby_frame] ++ Some [] :: [Some standby_frame])
    sample_session
  = s1 ← for_each (_handle sample_keystream (clock_at 30))
           (omap id [None; Some standby_frame])
           (set_stop_event sample_session false);
    match _sock s1 with
    | None => Raise AttributeError
    | Some k =>
      Ok (add_log (set_sock (set_stop_event s1 true)
                     (Some {| sent := sent k; closed := true |}))
                  LogStopped)
    end.
Proof.
  apply (listener_runs_until_empty_read sample_keystream (clock_at 30)
           [None; Some standby_frame] [Some standby_frame] sample_session).
  repeat constructor; discriminate.
Defined.

Lemma dispatch_never_stops_the_session_witness :
  _stop_event after_standby = _stop_event sample_session ∧
  _state after_standby = _state sample_session ∧
  _worker after_standby = _worker sample_session ∧
  _cb_start after_standby = _cb_start sample_session.
Proof.
  apply (dispatch_never_stops_the_session sample_keystream (clock_at 30)
           sample_session after_standby standby_frame).
  vm_compute. reflexivity.
Defined.

Lemma dispatch_only_appends_witness :
  (∃ more, _sock after_standby
           = Some {| sent := sent sample_socket ++ more;
                     closed := closed sample_socket |}) ∧
  (∃ more, log after_standby = log sample_session ++ more) ∧
  (∃ more, events after_standby = events sample_session ++ more) ∧
  (clock sample_session ≤ clock after_standby)%nat.
Proof.
  apply (dispatch_only_appends sample_keystream (clock_at 30)
           sample_session after_standby sample_socket standby_frame).
  - reflexivity.
  - vm_compute. reflexivity.
Defined.

Lemma dispatch_never_rewinds_cipher_witness :
  ∃ n, _cipher after_standby = Some (RPCipher.advance sample_cipher n).
Proof.
  apply (dispatch_never_rewinds_cipher sample_keystream (clock_at 30)
           sample_session after_standby sample_cipher standby_frame).
  - reflexivity.
  - vm_compute. reflexivity.
Defined.

Lemma dispatch_keystream_use_witness :
  ∃ s', _handle sample_keystream (clock_at 0) sample_session
          (session_id_frame id_ABC123) = Ok s' ∧
    _cipher s'
    = Some (RPCipher.advance sample_cipher
              (length (session_id_frame id_ABC123) - 8
               + (if bool_decide (session_id_frame id_ABC123 !! 5%nat = Some 0xfe%Z)
                  then 8 else 0))).
Proof.
  apply (dispatch_keystream_use sample_keystream (clock_at 0) sample_session
           sample_cipher (session_id_frame id_ABC123)).
  - reflexivity.
  - reflexivity.
  - apply Nat.leb_le. vm_compute. reflexivity.
Defined.

(** ** Frames of the peer *)

Section PeerFrameFacts.

Variable keystream : bytes → bytes → nat → Z.
Variable wall_clock : nat → float.

Lemma frame_parts (c : RPCipher.t) (msg_type : Z) (payload : bytes) :
  0 ≤ msg_type < 256 →
  frame keystream c msg_type payload !! 5%nat = Some msg_type ∧
  (RPCipher.decrypt keystream c (drop 8 (frame keystream c msg_type payload))).1
  = payload.
Proof.
  intros Hty. unfold frame, header. cbn. split.
  - f_equal. rewrite byte_of_land, Z.shiftr_0_r. apply Z.mod_small. lia.
  - by rewrite drop_0, xor_stream_involutive.
Qed.

(** X14. Round trip against a well-formed sender: a frame laid out as the
    protocol says, with a one-byte message type and the payload encrypted
    from the position the receiving cipher is at, is decoded to that type
    and to the plaintext, and the receiving cipher moves on by the length
    of the payload. *)
Theorem peer_frame_round_trip
    (s : CTRL) (c : RPCipher.t) (msg_type : Z) (payload : bytes) :
  _cipher s = Some c → 0 ≤ msg_type < 256 →
  decode keystream s (frame keystream c msg_type payload)
  = Ok (msg_type, payload,
        set_cipher s (Some (RPCipher.advance c (length payload)))).
Proof.
  intros Hc Hty.
  destruct (frame_parts c msg_type payload Hty) as [H5 Hp].
  rewrite (decode_ok keystream s c _ msg_type Hc H5), Hp.
  do 4 f_equal. unfold frame, header. cbn.
  by rewrite drop_0, xor_stream_length.
Qed.

(** X15. Keystream alignment after a dropped frame: when byte 5 of a
    frame of the peer is no known type, the dispatch logs it, changes
    nothing but the cipher position, and the next frame of the peer is
    decoded to its plaintext. *)
Theorem unknown_frame_keeps_alignment
    (s : CTRL) (c : RPCipher.t) (b msg_type : Z) (junk payload : bytes) :
  _cipher s = Some c → 0 ≤ b < 256 → MessageType.of_value b = None →
  0 ≤ msg_type < 256 →
  ∃ s1,
    _handle keystream wall_clock s (frame keystream c b junk) = Ok s1 ∧
    s1 = add_log (set_cipher s (Some (RPCipher.advance c (length junk))))
           (LogInvalidMessageType b) ∧
    decode keystream s1
      (frame keystream (RPCipher.advance c (length junk)) msg_type payload)
    = Ok (msg_type, payload,
          set_cipher s1
            (Some (RPCipher.advance (RPCipher.advance c (length junk))
                     (length payload)))).
Proof.
  intros Hc Hb Hty Hm.
  destruct (frame_parts c b junk Hb) as [H5 Hp].
  assert (Hlen : length (drop 8 (frame keystream c b junk)) = length junk).
  { unfold frame, header. cbn. by rewrite drop_0, xor_stream_length. }
  eexists. split; [|split; [reflexivity|]].
  - rewrite (handle_unknown keystream wall_clock s c _ b Hc H5 Hty).
    by rewrite Hlen.
  - by apply decode_frame.
Qed.

(** X16. Session-id capture from the peer: a SESSION_ID frame of the peer
    whose payload is any two bytes followed by valid text sets the
    identity to that text, whatever the two bytes are, and calls the
    registered callback, or starts the stream bootstrap when there is
    none and the text is not empty. *)
Theorem peer_session_id_captured
    (s : CTRL) (c : RPCipher.t) (p0 p1 : Z) (id : bytes) :
  ready s = true → _cipher s = Some c → Bytes.utf8_valid id = true →
  ∃ s',
    _handle keystream wall_clock s
      (frame keystream c (MessageType.value MessageType.SESSION_ID)
         (p0 :: p1 :: id)) = Ok s' ∧
    _session_id s' = id ∧
    events s'
    = events s ++ (if _cb_start s then [CbStart]
                   else if bool_decide (id = []) then []
                   else [StreamConnect true]).
Proof.
  intros Hready Hc Hid.
  destruct (frame_parts c (MessageType.value MessageType.SESSION_ID)
              (p0 :: p1 :: id)) as [H5 Hp]; [cbn; lia|].
  destruct (ready_inv s Hready) as (c' & k & Hc' & Hk & Hcl).
  rewrite Hc in Hc'. injection Hc' as <-.
  set (data := frame _ _ _ _) in *.
  unfold _handle. rewrite (decode_ok keystream s c data _ Hc H5), bind_Ok.
  cbn beta iota.
  change (MessageType.of_value (MessageType.value MessageType.SESSION_ID))
    with (Some MessageType.SESSION_ID).
  cbn beta iota. eval_eqb. cbn beta iota. rewrite bind_Ok. cbn beta iota.
  rewrite Hp. change (drop 2 (p0 :: p1 :: id)) with id. rewrite Hid.
  match goal with |- context [heartbeat_check _ _ ?x] => set (s2 := x) end.
  assert (H2 : ready s2 = true ∧ _session_id s2 = id ∧
               events s2 = events s ++ (if _cb_start s then [CbStart]
                                        else if bool_decide (id = []) then []
                                        else [StreamConnect true])).
  { subst s2. unfold start_stream, ready. cbn.
    destruct (_cb_start s); [|case_bool_decide]; cbn;
      rewrite ?Hk, ?Hcl, ?app_nil_r; done. }
  destruct H2 as (Hr2 & Hid2 & Hev2).
  destruct (heartbeat_check_obs keystream wall_clock s2 Hr2)
    as (s' & Hhc & _ & Hid' & _).
  exists s'. split; [done|]. split; [by rewrite Hid'|].
  rewrite <- Hev2.
  by apply (heartbeat_check_grows keystream wall_clock
              (λ x, events x = events s2)) with (s := s2).
Qed.

End PeerFrameFacts.

Lemma peer_frame_round_trip_witness :
  decode sample_keystream sample_session
    (frame sample_keystream sample_cipher 0x50 id_XYZ789)
  = Ok (0x50, id_XYZ789,
        set_cipher sample_session
          (Some (RPCipher.advance sample_cipher (length id_XYZ789)))).
Proof.
  apply (peer_frame_round_trip sample_keystream sample_session sample_cipher
           0x50 id_XYZ789).
  - reflexivity.
  - lia.
Defined.

Lemma unknown_frame_keeps_alignment_witness :
  ∃ s1,
    _handle sample_keystream (clock_at 0) sample_session
      (frame sample_keystream sample_cipher 0x77 id_ABC123) = Ok s1 ∧
    s1 = add_log (set_cipher sample_session
                    (Some (RPCipher.advance sample_cipher (length id_ABC123))))
           (LogInvalidMessageType 0x77) ∧
    decode sample_keystream s1
      (frame sample_keystream (RPCipher.advance sample_cipher (length id_ABC123))
         0x50 id_XYZ789)
    = Ok (0x50, id_XYZ789,
          set_cipher s1
            (Some (RPCipher.advance
                     (RPCipher.advance sample_cipher (length id_ABC123))
                     (length id_XYZ789)))).
Proof.
  apply (unknown_frame_keeps_alignment sample_keystream (clock_at 0)
           sample_session sample_cipher 0x77 0x50 id_ABC123 id_XYZ789).
  - reflexivity.
  - lia.
  - reflexivity.
  - lia.
Defined.

Lemma peer_session_id_captured_witness :
  ∃ s',
    _handle sample_keystream (clock_at 0) sample_session
      (frame sample_keystream sample_cipher
         (MessageType.value MessageType.SESSION_ID) (0x12 :: 0x34 :: id_ABC123))
    = Ok s' ∧
    _session_id s' = id_ABC123 ∧
    events s'
    = events sample_session
      ++ (if _cb_start sample_session then [CbStart]
          else if bool_decide (id_ABC123 = []) then []
          else [StreamConnect true]).
Proof.
  apply (peer_session_id_captured sample_keystream (clock_at 0) sample_session
           sample_cipher 0x12 0x34 id_ABC123).
  - reflexivity.
  - reflexivity.
  - reflexivity.
Defined.

(** ** The send queue *)

Section SendFacts.

(** X17. [send] is first in, first out: on a ready session, [n] calls
    write the first [n] queued buffers to the socket, oldest first, and
    leave the rest queued; calls beyond the length of the queue do
    nothing. *)
Theorem send_is_fifo (n : nat) (s : CTRL) :
  ready s = true →
  ∃ s', for_each (λ s _, send s) (range 0 n) s = Ok s' ∧
    _send_buf s' = drop n (_send_buf s) ∧
    sock_sent s' = sock_sent s ++ take n (_send_buf s) ∧
    ready s' = true.
Proof.
  revert s. unfold range. generalize 0%nat as a.
  induction n as [|n IH]; intros a s Hready.
  - exists s. cbn. by rewrite app_nil_r.
  - cbn [seq for_each].
    destruct (ready_inv s Hready) as (c & k & Hc & Hk & Hcl).
    cbn beta. destruct (_send_buf s) as [|f q] eqn:Hq.
    + assert (Hsend : send s = Ok s) by (unfold send; by rewrite Hq).
      rewrite Hsend, bind_Ok.
      destruct (IH (S a) s Hready) as (s' & -> & Hb & Hs & Hr).
      exists s'. rewrite Hb, Hs, Hq. by rewrite drop_nil, take_nil.
    + assert (Hsend : send s
                      = Ok (set_sock (set_send_buf s q)
                              (Some {| sent := sent k ++ [f]; closed := false |}))).
      { unfold send. rewrite Hq. by rewrite (sock_send_ok _ k). }
      rewrite Hsend, bind_Ok.
      match goal with |- context [for_each _ _ ?x] => set (s1 := x) end.
      assert (Hr1 : ready s1 = true) by (unfold ready; cbn; by rewrite Hc).
      destruct (IH (S a) s1 Hr1) as (s' & -> & Hb & Hs & Hr).
      exists s'. rewrite Hb, Hs. unfold sock_sent. cbn. rewrite Hk.
      by rewrite <- app_assoc.
Qed.

End SendFacts.

Lemma send_is_fifo_witness :
  ∃ s', for_each (λ s _, send s) (range 0 3)
          (set_send_buf sample_session [id_ABC123; id_XYZ789]) = Ok s' ∧
    _send_buf s' = drop 3 (_send_buf (set_send_buf sample_session [id_ABC123; id_XYZ789])) ∧
    sock_sent s'
    = sock_sent (set_send_buf sample_session [id_ABC123; id_XYZ789])
      ++ take 3 (_send_buf (set_send_buf sample_session [id_ABC123; id_XYZ789])) ∧
    ready s' = true.
Proof.
  apply (send_is_fifo 3 (set_send_buf sample_session [id_ABC123; id_XYZ789])).
  reflexivity.
Defined.

(** ** The init phase *)

Section InitFacts.

Variable b64decode : string → result bytes.
Variable auth_phase : CTRL → bytes → result (bool * CTRL).

(** X18. Without a nonce header the handshake never reaches the auth
    phase: [connect] does not depend on it and, when it returns, returns
    [False]. With status 200 it returns [False] and leaves the session as
    it was. *)
Theorem connect_without_nonce (s : CTRL) (response : Response) :
  headers_get response "RP-Nonce" = None →
  (status_code response = 200 →
   connect b64decode auth_phase s response = Ok (false, s)) ∧
  (∀ ok s', connect b64decode auth_phase s response = Ok (ok, s') →
     ok = false) ∧
  (∀ auth_phase',
     connect b64decode auth_phase' s response
     = connect b64decode auth_phase s response).
Proof.
  intros Hn. unfold connect, _parse_init. rewrite Hn.
  split; [|split].
  - intros ->. by rewrite bool_decide_false by (intros H; by apply H).
  - intros ok s' H.
    apply bind_inv in H as ([nonce s1] & H1 & H).
    apply bind_inv in H1 as (s2 & _ & [= <- <-]).
    by injection H as <- _.
  - intros auth'. rewrite !bind_assoc.
    destruct (if bool_decide _ then _ else _) as [s1|e]; done.
Qed.

(** X19. What a non-200 init response leads to. No reason header: a
    [TypeError]. A reason that is not hexadecimal, or that is the code of
    no member of [Error] (the empty string included): a [ValueError]. The
    code of a member, and no nonce header: the member's name is logged
    and [connect] returns [False]. *)
Theorem init_rejection_outcomes (s : CTRL) (response : Response) :
  status_code response ≠ 200 →
  (headers_get response "RP-Application-Reason" = None →
   _parse_init b64decode s response = Raise TypeError) ∧
  (∀ reason,
     headers_get response "RP-Application-Reason" = Some reason →
     Bytes.fromhex reason = Raise ValueError →
     _parse_init b64decode s response = Raise ValueError) ∧
  (∀ reason b,
     headers_get response "RP-Application-Reason" = Some reason →
     Bytes.fromhex reason = Ok b →
     Error.of_value (Bytes.from_be b) = None →
     _parse_init b64decode s response = Raise ValueError) ∧
  (∀ reason b e,
     headers_get response "RP-Application-Reason" = Some reason →
     Bytes.fromhex reason = Ok b →
     Error.of_value (Bytes.from_be b) = Some e →
     headers_get response "RP-Nonce" = None →
     connect b64decode auth_phase s response
     = Ok (false, add_log s (LogInitFailed (Error.name e)))).
Proof.
  intros Hst. unfold connect, _parse_init.
  rewrite bool_decide_true by done.
  split; [|split; [|split]].
  - by intros ->.
  - intros reason -> Hf. by rewrite Hf.
  - intros reason b -> Hf He. rewrite Hf, bind_Ok. by rewrite He.
  - intros reason b e -> Hf He Hn. rewrite Hf, bind_Ok, He, bind_Ok, Hn.
    done.
Qed.

(** X20. [start] never returns a true value. It returns [False] when the
    host is not available, without looking at any response, and when
    [connect] returns [False]; when [connect] returns [True] it falls off
    its end, returning [None], with the state ready and the worker
    started. *)
Theorem start_outcome
    (s s' : CTRL) (host_available : bool) (response : Response)
    (ret : option bool) :
  start b64decode auth_phase s host_available response = Ok (ret, s') →
  (ret = Some false ∧ host_available = false ∧ s' = add_log s LogNoDevice) ∨
  (ret = Some false ∧ host_available = true ∧
   ∃ s1, connect b64decode auth_phase s response = Ok (false, s1) ∧
         s' = add_log s1 LogAuthFailed) ∨
  (ret = None ∧ host_available = true ∧
   ∃ s1, connect b64decode auth_phase s response = Ok (true, s1) ∧
         s' = set_worker (set_state (add_log s1 LogAuthSuccess) STATE_READY) true ∧
         _state s' = STATE_READY ∧ _worker s' = true).
Proof.
  unfold start. destruct host_available; cbn [negb].
  - intros H. apply bind_inv in H as ([ok s1] & Hc & H).
    destruct ok; cbn [negb] in H; injection H as <- <-.
    + right. right. split; [done|]. split; [done|]. by exists s1.
    + right. left. split; [done|]. split; [done|]. by exists s1.
  - intros [= <- <-]. by left.
Qed.

End InitFacts.

Lemma connect_without_nonce_witness :
  (status_code empty_ok_response = 200 →
   connect (λ _, Raise ValueError) (λ s _, Ok (true, s)) sample_session
     empty_ok_response = Ok (false, sample_session)) ∧
  (∀ ok s', connect (λ _, Raise ValueError) (λ s _, Ok (true, s)) sample_session
              empty_ok_response = Ok (ok, s') → ok = false) ∧
  (∀ auth_phase',
     connect (λ _, Raise ValueError) auth_phase' sample_session empty_ok_response
     = connect (λ _, Raise ValueError) (λ s _, Ok (true, s)) sample_session
         empty_ok_response).
Proof.
  apply (connect_without_nonce (λ _, Raise ValueError) (λ s _, Ok (true, s))
           sample_session empty_ok_response).
  reflexivity.
Defined.

Lemma init_rejection_outcomes_witness :
  connect (λ _, Raise ValueError) (λ s _, Ok (true, s)) (__init__ false)
    in_use_response
  = Ok (false, add_log (__init__ false) (LogInitFailed "RP_IN_USE")).
Proof.
  destruct (init_rejection_outcomes (λ _, Raise ValueError)
              (λ s _, Ok (true, s)) (__init__ false) in_use_response)
    as (_ & _ & _ & H).
  - vm_compute. discriminate.
  - apply (H "80108b10"%string [0x80; 0x10; 0x8b; 0x10] Error.RP_IN_USE);
      reflexivity.
Defined.

Lemma start_outcome_witness :
  (Some false = Some false ∧ false = false ∧
   add_log (__init__ false) LogNoDevice = add_log (__init__ false) LogNoDevice) ∨
  (Some false = Some false ∧ false = true ∧
   ∃ s1, connect (λ _, Raise ValueError) (λ s _, Ok (true, s)) (__init__ false)
           in_use_response = Ok (false, s1) ∧
         add_log (__init__ false) LogNoDevice = add_log s1 LogAuthFailed) ∨
  (Some false = None ∧ false = true ∧
   ∃ s1, connect (λ _, Raise ValueError) (λ s _, Ok (true, s)) (__init__ false)
           in_use_response = Ok (true, s1) ∧
         add_log (__init__ false) LogNoDevice
         = set_worker (set_state (add_log s1 LogAuthSuccess) STATE_READY) true ∧
         _state (add_log (__init__ false) LogNoDevice) = STATE_READY ∧
         _worker (add_log (__init__ false) LogNoDevice) = true).
Proof.
  apply (start_outcome (λ _, Raise ValueError) (λ s _, Ok (true, s))
           (__init__ false) (add_log (__init__ false) LogNoDevice)
           false in_use_response (Some false)).
  reflexivity.
Defined.

(** ** The key/header and auth phases *)

Lemma xor_stream_app (ks : nat → Z) (pos : nat) (x y : bytes) :
  RPCipher.xor_stream ks pos (x ++ y)
  = RPCipher.xor_stream ks pos x ++ RPCipher.xor_stream ks (pos + length x) y.
Proof.
  revert pos. induction x as [|b x IH]; intros pos; cbn.
  - by rewrite Nat.add_0_r.
  - rewrite IH. by rewrite Nat.add_succ_r.
Qed.

Lemma gen_did_length (random : bytes) :
  length random = 16%nat → length (_gen_did random) = 32%nat.
Proof.
  intros H. unfold _gen_did, DID_PREFIX, bytearray.
  rewrite !length_app, length_replicate, H. done.
Qed.

Lemma ljust_length (b : bytes) (width : nat) :
  length (ljust b width) = (length b `max` width)%nat.
Proof. unfold ljust. rewrite length_app, length_replicate. lia. Qed.

Lemma cipher_encrypt_ok (keystream : bytes → bytes → nat → Z)
    (s : CTRL) (c : RPCipher.t) (buf : bytes) :
  _cipher s = Some c →
  cipher_encrypt keystream s buf
  = Ok ((RPCipher.encrypt keystream c buf).1,
        set_cipher s (Some (RPCipher.advance c (length buf)))).
Proof. intros Hc. unfold cipher_encrypt. by rewrite Hc. Qed.

Lemma cipher_decrypt_ok (keystream : bytes → bytes → nat → Z)
    (s : CTRL) (c : RPCipher.t) (buf : bytes) :
  _cipher s = Some c →
  cipher_decrypt keystream s buf
  = Ok ((RPCipher.decrypt keystream c buf).1,
        set_cipher s (Some (RPCipher.advance c (length buf)))).
Proof. intros Hc. unfold cipher_decrypt. by rewrite Hc. Qed.

Section AuthFacts.

Variables CTRL_KEY_0 CTRL_KEY_1 : bytes.
Variable OS_TYPE : bytes.
Variables RP_PORT USER_AGENT RP_VERSION : string.
Variable keystream : bytes → bytes → nat → Z.
Variable b64encode : bytes → string.
Variable b64decode : string → result bytes.

Lemma get_rp_nonce_inv (nonce out : bytes) :
  _get_rp_nonce CTRL_KEY_0 nonce = Ok out →
  out = derive_session_nonce CTRL_KEY_0 nonce ∧ (16 ≤ length nonce)%nat.
Proof.
  intros H.
  destruct (decide (16 ≤ length nonce ∧
                    Z.to_nat ((nonce !!! 0%nat ≫ 3) * 112) + 16
                    ≤ length CTRL_KEY_0)%nat) as [[? ?]|Hn].
  - rewrite get_rp_nonce_ok in H by done. split; [congruence|done].
  - rewrite get_rp_nonce_raises in H by lia. done.
Qed.

Lemma get_aes_key_inv (nonce rp_key out : bytes) :
  _get_aes_key CTRL_KEY_1 nonce rp_key = Ok out →
  out = derive_aes_key CTRL_KEY_1 nonce rp_key.
Proof.
  intros H.
  destruct (decide (16 ≤ length nonce ∧ 16 ≤ length rp_key ∧
                    Z.to_nat ((nonce !!! 7%nat ≫ 3) * 112) + 16
                    ≤ length CTRL_KEY_1)%nat) as [(? & ? & ?)|Hn].
  - rewrite get_aes_key_ok in H by done. congruence.
  - rewrite get_aes_key_raises in H by lia. done.
Qed.

Lemma get_ctrl_headers_ok
    (reg : Registration) (random : bytes) (s : CTRL)
    (nonce rp_nonce aes_key regist_key : bytes) :
  _get_rp_nonce CTRL_KEY_0 nonce = Ok rp_nonce →
  _get_aes_key CTRL_KEY_1 nonce (_rp_key reg) = Ok aes_key →
  Bytes.fromhex (_regist_key reg) = Ok regist_key →
  length random = 16%nat →
  ∃ headers,
    CTRL__get_ctrl_headers CTRL_KEY_0 CTRL_KEY_1 OS_TYPE RP_PORT USER_AGENT
      RP_VERSION keystream b64encode reg random s nonce
    = Ok (headers,
          set_cipher s
            (Some (RPCipher.advance (RPCipher.new aes_key rp_nonce 0)
                     (length regist_key + 8 + 32
                      + (length OS_TYPE `max` 10) + 4)))).
Proof.
  intros Hrp Haes Hhex Hrnd. unfold CTRL__get_ctrl_headers.
  rewrite Hrp, bind_Ok, Haes, bind_Ok. cbn zeta. rewrite Hhex, bind_Ok.
  set (c0 := RPCipher.new aes_key rp_nonce 0).
  repeat (erewrite cipher_encrypt_ok by reflexivity; rewrite bind_Ok;
          cbn beta iota).
  eexists. do 2 f_equal. rewrite !advance_advance.
  change (set_cipher (set_cipher (set_cipher (set_cipher (set_cipher s ?a) ?b) ?c) ?d) ?e)
    with (set_cipher s e).
  do 3 f_equal.
  rewrite !length_app, gen_did_length, ljust_length by done.
  unfold bytearray. rewrite !length_replicate. lia.
Qed.

(** X21. The header phase uses the keystream once, from its start and in
    order. When both derivations succeed and the registration key is
    hexadecimal, [CTRL._get_ctrl_headers] installs a cipher keyed by the
    derived key and nonce; the values of RP-Auth, RP-Did, RP-OSType and
    RP-StartBitrate are the encodings of four ciphertexts that, put end to
    end, are the encryption from position 0 of the registration key with
    8 zero bytes, the device id, the OS type padded to 10 bytes and 4 zero
    bytes; and the cipher is left just behind them. *)
Theorem ctrl_headers_use_keystream_in_order
    (reg : Registration) (random : bytes) (s : CTRL)
    (nonce rp_nonce aes_key regist_key : bytes) :
  _get_rp_nonce CTRL_KEY_0 nonce = Ok rp_nonce →
  _get_aes_key CTRL_KEY_1 nonce (_rp_key reg) = Ok aes_key →
  Bytes.fromhex (_regist_key reg) = Ok regist_key →
  length random = 16%nat →
  ∃ headers auth did os_type bitrate,
    CTRL__get_ctrl_headers CTRL_KEY_0 CTRL_KEY_1 OS_TYPE RP_PORT USER_AGENT
      RP_VERSION keystream b64encode reg random s nonce
    = Ok (headers,
          set_cipher s
            (Some (RPCipher.advance (RPCipher.new aes_key rp_nonce 0)
                     (length regist_key + 8 + 32
                      + (length OS_TYPE `max` 10) + 4)))) ∧
    headers !! "RP-Auth" = Some (b64encode auth) ∧
    headers !! "RP-Did" = Some (b64encode did) ∧
    headers !! "RP-OSType" = Some (b64encode os_type) ∧
    headers !! "RP-StartBitrate" = Some (b64encode bitrate) ∧
    auth ++ did ++ os_type ++ bitrate
    = (RPCipher.encrypt keystream (RPCipher.new aes_key rp_nonce 0)
         ((regist_key ++ bytearray 8) ++ _gen_did random
          ++ ljust OS_TYPE 10 ++ bytearray 4)).1.
Proof.
  intros Hrp Haes Hhex Hrnd. unfold CTRL__get_ctrl_headers.
  rewrite Hrp, bind_Ok, Haes, bind_Ok. cbn zeta. rewrite Hhex, bind_Ok.
  set (c0 := RPCipher.new aes_key rp_nonce 0).
  repeat (erewrite cipher_encrypt_ok by reflexivity; rewrite bind_Ok;
          cbn beta iota).
  eexists _, _, _, _, _. split; [|split; [|split; [|split; [|split]]]].
  - do 2 f_equal. rewrite !advance_advance.
    change (set_cipher (set_cipher (set_cipher (set_cipher (set_cipher s ?a) ?b) ?c) ?d) ?e)
      with (set_cipher s e).
    do 3 f_equal.
    rewrite !length_app, gen_did_length, ljust_length by done.
    unfold bytearray. rewrite !length_replicate. lia.
  - reflexivity.
  - reflexivity.
  - reflexivity.
  - reflexivity.
  - unfold RPCipher.encrypt. cbn [fst].
    rewrite !xor_stream_app. rewrite <- !app_assoc. cbn.
    repeat f_equal; rewrite ?length_app; lia.
Qed.


Lemma parse_init_inv (s s0 : CTRL) (response : Response) (nonce : option bytes) :
  _parse_init b64decode s response = Ok (nonce, s0) →
  (s0 = s ∨ ∃ e, s0 = add_log s (LogInitFailed (Error.name e))) ∧
  match nonce with
  | None => headers_get response "RP-Nonce" = None
  | Some n => ∃ h, headers_get response "RP-Nonce" = Some h ∧ b64decode h = Ok n
  end.
Proof.
  unfold _parse_init. intros H.
  apply bind_inv in H as (s1 & H1 & H).
  assert (Hs : s1 = s ∨ ∃ e, s1 = add_log s (LogInitFailed (Error.name e))).
  { case_bool_decide; [|left; congruence].
    destruct (headers_get response "RP-Application-Reason"); [|done].
    apply bind_inv in H1 as (b & _ & H1).
    destruct (Error.of_value _) as [e|]; [|done].
    right. exists e. congruence. }
  destruct (headers_get response "RP-Nonce") as [h|].
  - apply bind_inv in H as (n & Hn & [= <- <-]). split; [done|]. by exists h.
  - by injection H as <- <-.
Qed.

Lemma send_auth_inv (s s' : CTRL) (response : Response) (st : option Z) :
  _send_auth keystream b64decode s response = Ok (true, s', st) →
  status_code response = 200 ∧
  ∃ h raw c,
    headers_get response "RP-Server-Type" = Some h ∧ b64decode h = Ok raw ∧
    _cipher s = Some c ∧
    s' = set_sock (set_cipher s (Some (RPCipher.advance c (length raw))))
           (Some {| sent := []; closed := false |}) ∧
    st = Some (from_b (RPCipher.decrypt keystream c raw).1 little).
Proof.
  unfold _send_auth. destruct (headers_get response "RP-Server-Type") as [h|];
    [|done].
  case_bool_decide as Hst; [done|].
  intros H. apply bind_inv in H as (raw & Hraw & H).
  apply bind_inv in H as ([plain s1] & Hd & [= <- <-]).
  split; [by destruct (decide (status_code response = 200))|].
  unfold cipher_decrypt in Hd. destruct (_cipher s) as [c|] eqn:Hc; [|done].
  injection Hd as <- <-. by exists h, raw, c.
Qed.

(** X22. What a successful handshake leaves behind. When [connect]
    returns [True], both responses carried their header, the auth
    response had status 200, and the session is ready: it has the open
    socket of the auth response, with nothing written yet, and a cipher
    keyed by the key and nonce derived from the decoded nonce, standing
    behind the four header fields and the server type. Identity, state,
    send queue and stop event are untouched. *)
Theorem connect_success
    (reg : Registration) (random : bytes) (s s' : CTRL)
    (response auth_response : Response) :
  length random = 16%nat →
  connect b64decode
    (auth_phase_of CTRL_KEY_0 CTRL_KEY_1 OS_TYPE RP_PORT USER_AGENT RP_VERSION
       keystream b64encode b64decode reg random auth_response)
    s response = Ok (true, s') →
  status_code auth_response = 200 ∧
  ready s' = true ∧ sock_sent s' = [] ∧
  _session_id s' = _session_id s ∧ _state s' = _state s ∧
  _send_buf s' = _send_buf s ∧ _stop_event s' = _stop_event s ∧
  ∃ h nonce h' raw regist_key,
    headers_get response "RP-Nonce" = Some h ∧ b64decode h = Ok nonce ∧
    headers_get auth_response "RP-Server-Type" = Some h' ∧
    b64decode h' = Ok raw ∧
    Bytes.fromhex (_regist_key reg) = Ok regist_key ∧
    _cipher s'
    = Some (RPCipher.advance
              (RPCipher.new (derive_aes_key CTRL_KEY_1 nonce (_rp_key reg))
                 (derive_session_nonce CTRL_KEY_0 nonce) 0)
              (length regist_key + 8 + 32 + (length OS_TYPE `max` 10) + 4
               + length raw)).
Proof.
  intros Hrnd H. unfold connect in H.
  apply bind_inv in H as ([nonce s0] & Hp & H).
  destruct nonce as [nonce|]; [|done].
  apply parse_init_inv in Hp as [Hs0 (h & Hh & Hn)].
  unfold auth_phase_of in H.
  apply bind_inv in H as ([headers s1] & Hg & H).
  apply bind_inv in H as ([[ok s2] st] & Ha & [= -> ->]).
  pose proof Hg as Hg'. unfold CTRL__get_ctrl_headers in Hg'.
  apply bind_inv in Hg' as (rp_nonce & Hrp & Hg').
  apply bind_inv in Hg' as (aes_key & Haes & Hg').
  cbn zeta in Hg'. apply bind_inv in Hg' as (rk & Hrk & _).
  destruct (get_ctrl_headers_ok reg random s0 nonce rp_nonce aes_key rk
              Hrp Haes Hrk Hrnd) as (hd & Hok).
  rewrite Hok in Hg. injection Hg as _ <-.
  apply send_auth_inv in Ha as (Hst & h' & raw & c & Hh' & Hraw & Hc & -> & _).
  cbn in Hc. injection Hc as <-.
  apply get_rp_nonce_inv in Hrp as [-> _].
  apply get_aes_key_inv in Haes as ->.
  split; [done|]. split; [done|]. split; [done|].
  assert (Hf : _session_id s0 = _session_id s ∧ _state s0 = _state s ∧
               _send_buf s0 = _send_buf s ∧ _stop_event s0 = _stop_event s).
  { destruct Hs0 as [->|[e ->]]; done. }
  destruct Hf as (? & ? & ? & ?).
  do 4 (split; [done|]).
  exists h, nonce, h', raw, rk. do 5 (split; [done|]).
  cbn. by rewrite advance_advance.
Qed.

(** X23. How the handshake fails once the init response has status 200
    and a nonce header. A header that does not decode: the error of
    [b64decode] leaves [connect]. A nonce of fewer than 16 bytes: an
    [IndexError] from the key derivation, not a [False]. A registration
    key that is not hexadecimal: a [ValueError], after the cipher has been
    made. *)
Theorem connect_error_paths
    (reg : Registration) (random : bytes) (s : CTRL)
    (response auth_response : Response) (h : string) :
  status_code response = 200 →
  headers_get response "RP-Nonce" = Some h →
  let run :=
    connect b64decode
      (auth_phase_of CTRL_KEY_0 CTRL_KEY_1 OS_TYPE RP_PORT USER_AGENT
         RP_VERSION keystream b64encode b64decode reg random auth_response)
      s response in
  (∀ e, b64decode h = Raise e → run = Raise e) ∧
  (∀ nonce, b64decode h = Ok nonce → (length nonce < 16)%nat →
     run = Raise IndexError) ∧
  (∀ nonce rp_nonce aes_key,
     b64decode h = Ok nonce →
     _get_rp_nonce CTRL_KEY_0 nonce = Ok rp_nonce →
     _get_aes_key CTRL_KEY_1 nonce (_rp_key reg) = Ok aes_key →
     Bytes.fromhex (_regist_key reg) = Raise ValueError →
     run = Raise ValueError).
Proof.
  intros Hst Hh run. subst run. unfold connect, _parse_init.
  rewrite Hst, bool_decide_false by (intros H; by apply H).
  rewrite bind_Ok, Hh.
  split; [|split].
  - intros e ->. done.
  - intros nonce -> Hlen. rewrite !bind_Ok. cbn beta iota.
    unfold auth_phase_of, CTRL__get_ctrl_headers.
    by rewrite get_rp_nonce_raises by lia.
  - intros nonce rp_nonce aes_key -> Hrp Haes Hhex. rewrite !bind_Ok.
    cbn beta iota. unfold auth_phase_of, CTRL__get_ctrl_headers.
    rewrite Hrp, bind_Ok, Haes, bind_Ok. cbn zeta. by rewrite Hhex.
Qed.

End AuthFacts.

(** ** Profiles *)

Lemma key_eqb_refl (k : value) : hashable k = true → key_eqb k k = true.
Proof.
  destruct k as [|b|n|s|l|d]; cbn; try done; intros _.
  - by destruct b.
  - apply Z.eqb_refl.
  - apply String.eqb_refl.
Qed.

Lemma key_eqb_congr (k k1 k2 : value) :
  key_eqb k k1 = true → key_eqb k k2 = key_eqb k1 k2.
Proof.
  destruct k as [|[]|n|s|l|d], k1 as [|[]|n1|s1|l1|d1]; cbn; try done;
    intros H;
    try apply Z.eqb_eq in H; try apply String.eqb_eq in H; subst; try done;
    destruct k2 as [|[]|n2|s2|l2|d2]; cbn; try done.
  all: by destruct n2 as [|[]|].
Qed.

Lemma dict_get_set_same (d : dict) (k v : value) :
  hashable k = true → dict_get (dict_set d k v) k = Some v.
Proof.
  intros Hk. induction d as [|[k' v'] d IH]; cbn.
  - by rewrite key_eqb_refl.
  - destruct (key_eqb k' k) eqn:E; cbn; by rewrite E.
Qed.

Lemma dict_get_set_other (d : dict) (k v k2 : value) :
  key_eqb k k2 = false → dict_get (dict_set d k v) k2 = dict_get d k2.
Proof.
  intros Hne. induction d as [|[k' v'] d IH]; cbn.
  - by rewrite Hne.
  - destruct (key_eqb k' k) eqn:E; cbn.
    + by rewrite (key_eqb_congr k' k k2 E), Hne.
    + by rewrite IH.
Qed.

Lemma dict_set_length (d : dict) (k v : value) :
  length (dict_set d k v)
  = (length d + (if dict_get d k is Some _ then 0 else 1))%nat.
Proof.
  induction d as [|[k' v'] d IH]; cbn; [done|].
  destruct (key_eqb k' k); cbn; [lia|]. rewrite IH. lia.
Qed.

Lemma dict_update_singleton (d : dict) (k v : value) :
  dict_update d [(k, v)] = dict_set d k v.
Proof. reflexivity. Qed.

(** X24. Which user ids [add_profile] refuses. The id is refused exactly
    when it is not a string and is false as a condition: a missing key,
    [None], [0], [False], an empty list or dictionary. Then the function
    returns a new empty dictionary and leaves [profiles] as it was. An
    empty string is a string and is accepted, and so is any other
    value. *)
Theorem add_profile_refusal (profiles user_data : dict) :
  let user_id := default VNone (dict_get user_data (VStr "user_rpid")) in
  (is_str user_id = false ∧ truthy user_id = false →
   add_profile profiles user_data = inr (profiles, [])) ∧
  (is_str user_id = true ∨ truthy user_id = true →
   add_profile profiles user_data = inl KeyError ∨
   add_profile profiles user_data = inl UnhashableTypeError ∨
   ∃ name profiles',
     dict_get user_data (VStr "online_id") = Some name ∧
     add_profile profiles user_data = inr (profiles', profiles') ∧
     dict_get profiles' name
     = Some (VDict [(VStr "id", user_id); (VStr "hosts", VDict [])])).
Proof.
  intros user_id. unfold add_profile. fold user_id. split.
  - intros [-> ->]. done.
  - intros H.
    assert (Hg : negb (is_str user_id) && negb (truthy user_id) = false)
      by (destruct H as [-> | ->]; [done|by destruct (is_str user_id)]).
    rewrite Hg.
    destruct (dict_get user_data (VStr "online_id")) as [name|]; [|by left].
    destruct (hashable name) eqn:Hh; [|right; by left].
    right. right. exists name. eexists. split; [done|]. split; [done|].
    rewrite dict_update_singleton. by apply dict_get_set_same.
Qed.

(** X25. What [add_profile] does to the profiles when it accepts the
    user: it stores under the user's name a profile with the id and an
    empty host table, replacing a profile already stored under that name
    together with its hosts, keeps every other profile, and adds at most
    one entry. The dictionary returned is [profiles] itself. Without an
    ["online_id"] it raises [KeyError]. *)
Theorem add_profile_stores_profile
    (profiles user_data : dict) (user_id : value) :
  dict_get user_data (VStr "user_rpid") = Some user_id →
  is_str user_id = true ∨ truthy user_id = true →
  (dict_get user_data (VStr "online_id") = None →
   add_profile profiles user_data = inl KeyError) ∧
  (∀ name,
     dict_get user_data (VStr "online_id") = Some name →
     hashable name = true →
     ∃ profiles',
       add_profile profiles user_data = inr (profiles', profiles') ∧
       dict_get profiles' name
       = Some (VDict [(VStr "id", user_id); (VStr "hosts", VDict [])]) ∧
       (∀ k, key_eqb name k = false →
             dict_get profiles' k = dict_get profiles k) ∧
       length profiles'
       = (length profiles
          + (if dict_get profiles name is Some _ then 0 else 1))%nat).
Proof.
  intros Hid H. unfold add_profile. rewrite Hid.
  change (default VNone (Some user_id)) with user_id.
  assert (Hg : negb (is_str user_id) && negb (truthy user_id) = false)
    by (destruct H as [-> | ->]; [done|by destruct (is_str user_id)]).
  rewrite Hg. split.
  - by intros ->.
  - intros name -> Hh. rewrite Hh. cbn [negb]. eexists. split; [done|].
    rewrite dict_update_singleton. split; [by apply dict_get_set_same|].
    split; [intros k Hk; by apply dict_get_set_other|].
    apply dict_set_length.
Qed.

(** ** Instances of the handshake and profile properties *)

Lemma ctrl_headers_use_keystream_in_order_witness :
  ∃ headers auth did os_type bitrate,
    CTRL__get_ctrl_headers byte_table byte_table [87; 105; 110] "9295" "agent"
      "10.0" sample_keystream sample_encode sample_registration sample_random
      (__init__ false) sample_nonce
    = Ok (headers,
          set_cipher (__init__ false)
            (Some (RPCipher.advance
                     (RPCipher.new
                        (derive_aes_key byte_table sample_nonce sample_pairing_key)
                        (derive_session_nonce byte_table sample_nonce) 0)
                     (length [0x0a; 0x0b; 0x0c; 0x0d] + 8 + 32
                      + (length [87; 105; 110] `max` 10) + 4)))) ∧
    headers !! "RP-Auth" = Some (sample_encode auth) ∧
    headers !! "RP-Did" = Some (sample_encode did) ∧
    headers !! "RP-OSType" = Some (sample_encode os_type) ∧
    headers !! "RP-StartBitrate" = Some (sample_encode bitrate) ∧
    auth ++ did ++ os_type ++ bitrate
    = (RPCipher.encrypt sample_keystream
         (RPCipher.new
            (derive_aes_key byte_table sample_nonce sample_pairing_key)
            (derive_session_nonce byte_table sample_nonce) 0)
         (([0x0a; 0x0b; 0x0c; 0x0d] ++ bytearray 8) ++ _gen_did sample_random
          ++ ljust [87; 105; 110] 10 ++ bytearray 4)).1.
Proof.
  apply (ctrl_headers_use_keystream_in_order byte_table byte_table
           [87; 105; 110] "9295" "agent" "10.0" sample_keystream sample_encode
           sample_registration sample_random (__init__ false) sample_nonce).
  - vm_compute. reflexivity.
  - vm_compute. reflexivity.
  - vm_compute. reflexivity.
  - reflexivity.
Defined.

Lemma connect_success_witness :
  status_code auth_ok_response = 200 ∧
  ready after_connect = true ∧ sock_sent after_connect = [] ∧
  _session_id after_connect = _session_id (__init__ false) ∧
  _state after_connect = _state (__init__ false) ∧
  _send_buf after_connect = _send_buf (__init__ false) ∧
  _stop_event after_connect = _stop_event (__init__ false) ∧
  ∃ h nonce h' raw regist_key,
    headers_get nonce_response "RP-Nonce" = Some h ∧
    sample_decode h = Ok nonce ∧
    headers_get auth_ok_response "RP-Server-Type" = Some h' ∧
    sample_decode h' = Ok raw ∧
    Bytes.fromhex (_regist_key sample_registration) = Ok regist_key ∧
    _cipher after_connect
    = Some (RPCipher.advance
              (RPCipher.new
                 (derive_aes_key byte_table nonce (_rp_key sample_registration))
                 (derive_session_nonce byte_table nonce) 0)
              (length regist_key + 8 + 32 + (length [87; 105; 110] `max` 10) + 4
               + length raw)).
Proof.
  apply (connect_success byte_table byte_table [87; 105; 110] "9295" "agent"
           "10.0" sample_keystream sample_encode sample_decode
           sample_registration sample_random (__init__ false) after_connect
           nonce_response auth_ok_response).
  - reflexivity.
  - vm_compute. reflexivity.
Defined.

Lemma connect_error_paths_witness :
  sample_connect (__init__ false) short_nonce_response = Raise IndexError.
Proof.
  destruct (connect_error_paths byte_table byte_table [87; 105; 110] "9295"
              "agent" "10.0" sample_keystream sample_encode sample_decode
              sample_registration sample_random (__init__ false)
              short_nonce_response auth_ok_response "0001")
    as (_ & H & _).
  - reflexivity.
  - reflexivity.
  - apply (H [0; 1]).
    + reflexivity.
    + simpl. lia.
Defined.

Lemma add_profile_refusal_witness :
  add_profile sample_profiles [(VStr "user_rpid", VInt 0)]
  = inr (sample_profiles, []).
Proof.
  apply (add_profile_refusal sample_profiles [(VStr "user_rpid", VInt 0)]).
  split; reflexivity.
Defined.

Lemma add_profile_stores_profile_witness :
  ∃ profiles',
    add_profile sample_profiles sample_user_data = inr (profiles', profiles') ∧
    dict_get profiles' (VStr "alice")
    = Some (VDict [(VStr "id", VStr "dXNlcg=="); (VStr "hosts", VDict [])]) ∧
    (∀ k, key_eqb (VStr "alice") k = false →
          dict_get profiles' k = dict_get sample_profiles k) ∧
    length profiles'
    = (length sample_profiles
       + (if dict_get sample_profiles (VStr "alice") is Some _ then 0 else 1))%nat.
Proof.
  destruct (add_profile_stores_profile sample_profiles sample_user_data
              (VStr "dXNlcg==")) as [_ H].
  - reflexivity.
  - left. reflexivity.
  - apply (H (VStr "alice")); reflexivity.
Defined.
